(** * Chowdown: the selection engine of the client page and the two
      [POST /restaurants] handlers, as a shallow embedding.

    Sources embedded here:
    - [src/unnamed/part_001]: the client component [Home] (state, the
      filter-reset effect, [handleSpin], [startSpinning], [handleSkip]);
    - [src/unnamed/part_003]: the vector-search handler [POST];
    - [src/unnamed/part_004]: the places-search handler [POST].

    JavaScript values are modelled as follows.  A [Record<string, number>]
    is a [gmap string nat], a [Set<string>] is a [gset string], an array is a
    [list], [string | null] is an [option string].  Numbers that are only
    passed through for display (ratings, coordinates) are rationals.
    Truthiness is written out where the code relies on it. *)

From Stdlib Require Import QArith.
From stdpp Require Import gmap strings list.

Local Open Scope string_scope.
Local Open Scope list_scope.

(** ** Shared data model *)

(** The [Restaurant] object shape used by the page and by both handlers. *)
Record Restaurant := mkRestaurant {
  id : string;
  name : string;
  cuisine : string;
  price_level : Z;
  rating : Q;
  address : string;
  vibe_short : string;
  must_order_dish : string;
  coordinates : Q * Q  (* { lat, lng } *)
}.

(** JavaScript truthiness of a string: only the empty string is falsy. *)
Definition truthy (s : string) : bool :=
  match s with
  | EmptyString => false
  | String _ _ => true
  end.

(** Truthiness of a [string | null | undefined] value. *)
Definition truthy_opt (o : option string) : bool :=
  match o with
  | Some s => truthy s
  | None => false
  end.

(** Truthiness of a number: [0] is falsy. *)
Definition truthy_num (q : Q) : bool := negb (Qeq_bool q 0).

Definition truthy_num_opt (o : option Q) : bool :=
  match o with
  | Some q => truthy_num q
  | None => false
  end.

(** [arr[Math.floor(Math.random() * arr.length)]] on a non-empty array
    [d :: tl].  [Math.random()] lies in [0, 1), so the index ranges over
    exactly [0 .. length - 1]; the random source is a natural number
    reduced modulo the length. *)
Definition randomOf {A} (rnd : nat) (d : A) (tl : list A) : A :=
  nth (rnd mod (S (length tl))) (d :: tl) d.

(** ** The client page, [src/unnamed/part_001] *)

Module Page.

(** The component state (the [useState] cells that carry logic;
    [loadingText] and [currentSpinName] are display strings). *)
Record State := mkState {
  location : string;
  coords : option (Q * Q);          (* [coordinates] *)
  vibe : string;
  budget : string;
  transport : string;
  loading : bool;
  spinning : bool;
  restaurants : list Restaurant;
  winner : option Restaurant;
  skippedCuisines : gmap string nat;
  nextPageToken : option string;
  seenIds : gset string
}.

(** The JSON body sent to [/api/restaurants]. *)
Record RequestBody := mkRequestBody {
  req_location : string;
  req_lat : option Q;
  req_lng : option Q;
  req_vibe : string;
  req_budget : string;
  req_transport : string;
  req_pageToken : option string
}.

(** The parsed response [data]. *)
Record Data := mkData {
  data_restaurants : list Restaurant;
  data_nextPageToken : option string
}.

(** [await fetch(...)] followed by [await res.json()]: either [data], or
    an exception that lands in the [catch] block. *)
Inductive FetchResult :=
| Rejected
| Resolved (data : Data).

(** What a handler does, in program order: calls of the state setters
    (with their argument, a value or an updater of the previous value),
    [alert]s and [fetch]es.  A handler reads the state of the render it
    was created in (its closure) and only queues setter calls. *)
Inductive Effect :=
| setLoading (b : bool)
| setSpinning (b : bool)
| setRestaurants (l : list Restaurant)
| setWinner (w : option Restaurant)
| setSkippedCuisines (upd : gmap string nat → gmap string nat)
| setNextPageToken (t : option string)
| setSeenIds (upd : gset string → gset string)
| setLocation (v : string)
| setVibe (v : string)
| setBudget (v : string)
| setTransport (v : string)
| alert (msg : string)
| fetch (body : RequestBody).

(** Applying one queued effect to the current state. *)
Definition commit (s : State) (e : Effect) : State :=
  match e with
  | setLoading b =>
      mkState (location s) (coords s) (vibe s) (budget s) (transport s)
        b (spinning s) (restaurants s) (winner s) (skippedCuisines s)
        (nextPageToken s) (seenIds s)
  | setSpinning b =>
      mkState (location s) (coords s) (vibe s) (budget s) (transport s)
        (loading s) b (restaurants s) (winner s) (skippedCuisines s)
        (nextPageToken s) (seenIds s)
  | setRestaurants l =>
      mkState (location s) (coords s) (vibe s) (budget s) (transport s)
        (loading s) (spinning s) l (winner s) (skippedCuisines s)
        (nextPageToken s) (seenIds s)
  | setWinner w =>
      mkState (location s) (coords s) (vibe s) (budget s) (transport s)
        (loading s) (spinning s) (restaurants s) w (skippedCuisines s)
        (nextPageToken s) (seenIds s)
  | setSkippedCuisines upd =>
      mkState (location s) (coords s) (vibe s) (budget s) (transport s)
        (loading s) (spinning s) (restaurants s) (winner s)
        (upd (skippedCuisines s)) (nextPageToken s) (seenIds s)
  | setNextPageToken t =>
      mkState (location s) (coords s) (vibe s) (budget s) (transport s)
        (loading s) (spinning s) (restaurants s) (winner s)
        (skippedCuisines s) t (seenIds s)
  | setSeenIds upd =>
      mkState (location s) (coords s) (vibe s) (budget s) (transport s)
        (loading s) (spinning s) (restaurants s) (winner s)
        (skippedCuisines s) (nextPageToken s) (upd (seenIds s))
  | setLocation v =>
      mkState v (coords s) (vibe s) (budget s) (transport s)
        (loading s) (spinning s) (restaurants s) (winner s)
        (skippedCuisines s) (nextPageToken s) (seenIds s)
  | setVibe v =>
      mkState (location s) (coords s) v (budget s) (transport s)
        (loading s) (spinning s) (restaurants s) (winner s)
        (skippedCuisines s) (nextPageToken s) (seenIds s)
  | setBudget v =>
      mkState (location s) (coords s) (vibe s) v (transport s)
        (loading s) (spinning s) (restaurants s) (winner s)
        (skippedCuisines s) (nextPageToken s) (seenIds s)
  | setTransport v =>
      mkState (location s) (coords s) (vibe s) (budget s) v
        (loading s) (spinning s) (restaurants s) (winner s)
        (skippedCuisines s) (nextPageToken s) (seenIds s)
  | alert _ => s
  | fetch _ => s
  end.

Definition commits (s : State) (es : list Effect) : State :=
  foldl commit s es.

(** The observable parts of a run of a handler. *)
Definition alerts (es : list Effect) : list string :=
  omap (λ e, match e with alert m => Some m | _ => None end) es.

Definition fetches (es : list Effect) : list RequestBody :=
  omap (λ e, match e with fetch b => Some b | _ => None end) es.

(** The alert texts of [handleSpin]. *)
Definition msg_location := "Please enter a location first!".
Definition msg_vibe := "What's the vibe tonight?".
Definition msg_spin_again :=
  "No matching spots in this batch. Spin again to search deeper!".
Definition msg_none_found := "No restaurants found matching your criteria.".
Definition msg_seen_everything := "You've seen everything!".
Definition msg_seen_all :=
  "You've seen all the spots in this area! Try changing filters.".
Definition msg_error := "Something went wrong. Try again!".

(** [skippedCuisines[c] || 0] *)
Definition skipCount (skipped : gmap string nat) (c : string) : nat :=
  default 0 (skipped !! c).

(** [startSpinning(list, preSelectedWinner)]: the interval only cycles
    display names over [list_]; when it has run for 2.5 seconds it sets the
    winner chosen beforehand and clears [spinning]. *)
Definition startSpinning (list_ : list Restaurant)
    (preSelectedWinner : Restaurant) : list Effect :=
  [setSpinning true; setWinner (Some preSelectedWinner); setSpinning false].

(** The body of the request of [handleSpin]. *)
Definition spinRequest (c : State) : RequestBody :=
  mkRequestBody (location c) (fst <$> coords c) (snd <$> coords c)
    (vibe c) (budget c) (transport c) (nextPageToken c).

(** [restaurants.filter(r => !seenIds.has(r.id))] *)
Definition unseenOf (seen : gset string) (pool : list Restaurant)
    : list Restaurant :=
  filter (λ r, id r ∉ seen) pool.

(** [data.restaurants.filter(r => (skippedCuisines[r.cuisine] || 0) < 2)] *)
Definition notSkippedTwice (skipped : gmap string nat)
    (items : list Restaurant) : list Restaurant :=
  filter (λ r, skipCount skipped (cuisine r) < 2) items.

(** [newRestaurants.filter(r => !restaurants.some(existing =>
    existing.id === r.id))] *)
Definition notInPool (pool items : list Restaurant) : list Restaurant :=
  filter (λ r, ¬ Exists (λ existing, id existing = id r) pool) items.

(** [handleSpin], run in the closure [c]. *)
Definition handleSpin (c : State) (rnd : nat)
    (api : RequestBody → FetchResult) : list Effect :=
  if negb (truthy (location c)) && negb (bool_decide (is_Some (coords c)))
  then [alert msg_location]
  else if negb (truthy (vibe c))
  then [alert msg_vibe]
  else
    [setLoading true; setWinner None] ++
    (* 1. unseen restaurants in the current pool *)
    let unseen := unseenOf (seenIds c) (restaurants c) in
    match unseen with
    | d :: tl =>
        let random := randomOf rnd d tl in
        [setSeenIds (λ prev, prev ∪ {[ id random ]}); setLoading false]
        ++ startSpinning (restaurants c) random
    | [] =>
        (* 2. first fetch, or a page token is pending *)
        if bool_decide (length (restaurants c) = 0)
           || truthy_opt (nextPageToken c)
        then
          fetch (spinRequest c) ::
          match api (spinRequest c) with
          | Rejected => [setLoading false; alert msg_error]
          | Resolved data =>
              let newRestaurants :=
                notSkippedTwice (skippedCuisines c) (data_restaurants data) in
              match newRestaurants with
              | [] =>
                  (if truthy_opt (data_nextPageToken data)
                   then [setNextPageToken (data_nextPageToken data);
                         alert msg_spin_again]
                   else [alert msg_none_found])
                  ++ [setLoading false]
              | _ :: _ =>
                  let uniqueNew := notInPool (restaurants c) newRestaurants in
                  if bool_decide (length uniqueNew = 0)
                     && negb (truthy_opt (data_nextPageToken data))
                  then [alert msg_seen_everything; setLoading false]
                  else
                    let updatedList := restaurants c ++ uniqueNew in
                    [setRestaurants updatedList;
                     setNextPageToken (data_nextPageToken data)] ++
                    (* the new batch, or the overall unseen *)
                    let available :=
                      match uniqueNew with
                      | _ :: _ => uniqueNew
                      | [] => unseenOf (seenIds c) updatedList
                      end in
                    match available with
                    | [] => [alert msg_seen_everything; setLoading false]
                    | d :: tl =>
                        let random := randomOf rnd d tl in
                        [setSeenIds (λ prev, prev ∪ {[ id random ]});
                         setLoading false]
                        ++ startSpinning updatedList random
                    end
              end
          end
        else [alert msg_seen_all; setLoading false]
    end.

(** [restaurants.filter(r => skipCount < 2 && r.id !== winner.id &&
    !seenIds.has(r.id))] with [skipCount] read from [updatedSkipped]. *)
Definition availableAfterSkip (updatedSkipped : gmap string nat)
    (w : Restaurant) (seen : gset string) (pool : list Restaurant)
    : list Restaurant :=
  filter
    (λ r, skipCount updatedSkipped (cuisine r) < 2
          ∧ id r ≠ id w ∧ id r ∉ seen)
    pool.

(** [handleSkip], run in the closure [c].  The call of [handleSpin] at
    the end runs in the same closure: it reads the [skippedCuisines],
    [seenIds] and [restaurants] of this render, not the queued updates. *)
Definition handleSkip (c : State) (rnd : nat)
    (api : RequestBody → FetchResult) : list Effect :=
  match winner c with
  | None => []
  | Some w =>
      let cuisine_ := cuisine w in
      setSkippedCuisines
        (λ prev, <[cuisine_ := skipCount prev cuisine_ + 1]> prev) ::
      let updatedSkipped :=
        <[cuisine_ := skipCount (skippedCuisines c) cuisine_ + 1]>
          (skippedCuisines c) in
      let availableRestaurants :=
        availableAfterSkip updatedSkipped w (seenIds c) (restaurants c) in
      match availableRestaurants with
      | [] => handleSpin c rnd api
      | d :: tl =>
          let random := randomOf rnd d tl in
          [setSeenIds (λ prev, prev ∪ {[ id random ]}); setWinner None]
          ++ startSpinning (restaurants c) random
      end
  end.

(** The effect "Reset state when filters change": its dependency array
    and its body. *)
Definition filterDeps (s : State) : string * string * string * string :=
  (location s, vibe s, budget s, transport s).

Definition resetOnFilterChange : list Effect :=
  [setRestaurants []; setSeenIds (λ _, ∅); setNextPageToken None;
   setWinner None].

(** After a render, React runs the effect when one of the dependencies
    differs from the previous render. *)
Definition useEffect (prev s : State) : State :=
  if decide (filterDeps prev = filterDeps s) then s
  else commits s resetOnFilterChange.

(** What the user can do on the page: the SPIN and SKIP buttons (with the
    random draw and the behaviour of the endpoint during that call), the
    "Start Over" button, and the four filter inputs. *)
Inductive Action :=
| Spin (rnd : nat) (api : RequestBody → FetchResult)
| Skip (rnd : nat) (api : RequestBody → FetchResult)
| StartOver
| ChangeLocation (v : string)
| ChangeVibe (v : string)
| ChangeBudget (v : string)
| ChangeTransport (v : string).

Definition handle (a : Action) (c : State) : list Effect :=
  match a with
  | Spin rnd api => handleSpin c rnd api
  | Skip rnd api => handleSkip c rnd api
  | StartOver => [setWinner None]
  | ChangeLocation v => [setLocation v]
  | ChangeVibe v => [setVibe v]
  | ChangeBudget v => [setBudget v]
  | ChangeTransport v => [setTransport v]
  end.

(** One user action: the handler runs in the closure of the current
    render, its setter calls are committed, and the effects of the next
    render run. *)
Definition step (s : State) (a : Action) : State :=
  useEffect s (commits s (handle a s)).

Definition run (s : State) (acts : list Action) : State :=
  foldl step s acts.

(** The state of the first render. *)
Definition initial : State :=
  mkState "" None "" "medium" "driving" false false [] None ∅ None ∅.

(** The actions that leave the filter set alone. *)
Definition keepsFilters (a : Action) : bool :=
  match a with
  | Spin _ _ | Skip _ _ | StartOver => true
  | _ => false
  end.

Definition ids (l : list Restaurant) : list string := id <$> l.

End Page.

(** ** Replies of the route handlers *)

(** A call that may throw (awaited promises included). *)
Inductive Outcome (A : Type) :=
| Threw
| Returned (a : A).
Arguments Threw {A}.
Arguments Returned {A} a.

Record Response (B : Type) := mkResponse {
  status : nat;
  body : B
}.
Arguments mkResponse {B} status body.
Arguments status {B} r.
Arguments body {B} r.

(** [NextResponse.json(body)] without an init: status 200. *)
Definition NextResponse_json {B} (b : B) : Response B := mkResponse 200 b.

(** A JSON value as far as the handlers look at it. *)
Inductive JsValue :=
| JUndefined
| JNull
| JBool (b : bool)
| JNumber (q : Q)
| JString (s : string)
| JObject.

Definition truthy_js (v : JsValue) : bool :=
  match v with
  | JUndefined | JNull => false
  | JBool b => b
  | JNumber q => truthy_num q
  | JString s => truthy s
  | JObject => true
  end.

(** [typeof v === "string"] *)
Definition typeof_string (v : JsValue) : bool :=
  match v with
  | JString _ => true
  | _ => false
  end.

(** [v === s] for a string literal [s]. *)
Definition strictEq (v : JsValue) (s : string) : bool :=
  match v with
  | JString t => String.eqb t s
  | _ => false
  end.

(** ** The vector-search handler, [src/unnamed/part_003] *)

Module VectorSearch.

Definition EMERGENCY_LIST : list Restaurant :=
  [ mkRestaurant "e1" "McDonald's" "Fast Food" 1 (35 # 10) "Everywhere"
      "Reliable & Fast" "Big Mac" (0%Q, 0%Q);
    mkRestaurant "e2" "Starbucks" "Coffee" 2 (4 # 1) "On the corner"
      "Caffeinated" "Caramel Macchiato" (0%Q, 0%Q);
    mkRestaurant "e3" "Taco Bell" "Fast Food" 1 (45 # 10) "Late Night Spot"
      "Live Más" "Crunchwrap Supreme" (0%Q, 0%Q);
    mkRestaurant "e4" "Domino's Pizza" "Pizza" 1 (38 # 10) "Delivery"
      "Pizza Night" "Pepperoni Pizza" (0%Q, 0%Q);
    mkRestaurant "e5" "Subway" "Sandwiches" 1 (37 # 10) "Eat Fresh"
      "Custom Subs" "Italian B.M.T." (0%Q, 0%Q) ].

(** The destructured request body [{ vibe, price_preference }]. *)
Record RequestBody := mkRequestBody {
  vibe : JsValue;
  price_preference : JsValue
}.

Definition Embedding := list Q.

(** One element of [embeddingData]; the field may be missing. *)
Record EmbeddingItem := mkEmbeddingItem {
  embedding : option Embedding
}.

(** The arguments of the [match_places] RPC. *)
Record RpcArgs := mkRpcArgs {
  query_embedding : Embedding;
  match_threshold : Q;
  match_count : Z;
  min_price : option Z;
  max_price : option Z
}.

(** [min_price] and [max_price] from [price_preference]; both stay
    [null] for any other value. *)
Definition priceRange (price_preference : JsValue) : option Z * option Z :=
  if strictEq price_preference "low" then (Some 0%Z, Some 1%Z)
  else if strictEq price_preference "medium" then (Some 2%Z, Some 2%Z)
  else if strictEq price_preference "high" then (Some 3%Z, Some 4%Z)
  else (None, None).

(** The arguments passed to [supabase.rpc("match_places", ...)]. *)
Definition rpcArgs (b : RequestBody) (query_embedding_ : Embedding)
    : RpcArgs :=
  mkRpcArgs query_embedding_ (1 # 2) 5
    (fst (priceRange (price_preference b)))
    (snd (priceRange (price_preference b))).

(** [embeddingData?.[0]?.embedding] *)
Definition firstEmbedding (embeddingData : option (list EmbeddingItem))
    : option Embedding :=
  match embeddingData with
  | Some (item :: _) => embedding item
  | _ => None
  end.

Section Handler.
(** The rows the [match_places] database function returns; its
    declaration is not part of the source. *)
Variable Row : Type.

(** [{ data, error }] of [supabase.rpc]. *)
Record RpcReply := mkRpcReply {
  data : option (list Row);
  error : option string
}.

(** The JSON array sent back: the static list or the RPC rows. *)
Inductive Payload :=
| Static (l : list Restaurant)
| Rows (l : list Row).

Definition payloadLength (p : Payload) : nat :=
  match p with
  | Static l => length l
  | Rows l => length l
  end.

(** [POST(req)].  [req] is [None] when [req.json()] throws; [embed] is
    [openai.embeddings.create] as a function of its [input], returning
    the [data] field; [rpc] is [supabase.rpc("match_places", args)]. *)
Definition POST (req : option RequestBody)
    (embed : string → Outcome (option (list EmbeddingItem)))
    (rpc : RpcArgs → Outcome RpcReply) : Response Payload :=
  match req with
  | None => NextResponse_json (Static EMERGENCY_LIST)
  | Some b =>
      if negb (truthy_js (vibe b)) || negb (typeof_string (vibe b))
      then NextResponse_json (Static EMERGENCY_LIST)
      else
        let input := match vibe b with JString s => s | _ => "" end in
        match embed input with
        | Threw => NextResponse_json (Static EMERGENCY_LIST)
        | Returned embeddingData =>
            match firstEmbedding embeddingData with
            | None => NextResponse_json (Static EMERGENCY_LIST)
            | Some query_embedding_ =>
                match rpc (rpcArgs b query_embedding_) with
                | Threw => NextResponse_json (Static EMERGENCY_LIST)
                | Returned reply =>
                    if bool_decide (is_Some (error reply))
                    then NextResponse_json (Static EMERGENCY_LIST)
                    else
                      match data reply with
                      | None | Some [] =>
                          NextResponse_json (Static EMERGENCY_LIST)
                      | Some (r :: rs) =>
                          NextResponse_json (Rows (r :: rs))
                      end
                end
            end
        end
  end.
End Handler.

Arguments data {Row} r.
Arguments error {Row} r.
Arguments mkRpcReply {Row} data error.
Arguments Static {Row} l.
Arguments Rows {Row} l.
Arguments payloadLength {Row} p.
Arguments POST {Row} req embed rpc.

End VectorSearch.

(** ** The places-search handler, [src/unnamed/part_004] *)

Module PlacesSearch.

(** A restaurant as this handler serialises it: the common fields and,
    for transformed places, the upstream [raw_price_level] (the static
    entries do not have the field). *)
Record Served := mkServed {
  restaurant : Restaurant;
  raw_price_level : option string
}.

Definition EMERGENCY_LIST : list Served :=
  [ mkServed (mkRestaurant "e1" "McDonald's" "Fast Food" 1 (35 # 10)
      "Everywhere" "Reliable & Fast" "Big Mac" (0%Q, 0%Q)) None;
    mkServed (mkRestaurant "e2" "Starbucks" "Coffee" 2 (4 # 1)
      "On the corner" "Caffeinated" "Caramel Macchiato" (0%Q, 0%Q)) None;
    mkServed (mkRestaurant "e3" "Taco Bell" "Fast Food" 1 (45 # 10)
      "Late Night Spot" "Live MÃ¡s" "Crunchwrap Supreme" (0%Q, 0%Q)) None;
    mkServed (mkRestaurant "e4" "Domino's Pizza" "Pizza" 1 (38 # 10)
      "Delivery" "Pizza Night" "Pepperoni Pizza" (0%Q, 0%Q)) None;
    mkServed (mkRestaurant "e5" "Subway" "Sandwiches" 1 (37 # 10)
      "Eat Fresh" "Custom Subs" "Italian B.M.T." (0%Q, 0%Q)) None ].

(** The destructured request body. *)
Record RequestBody := mkRequestBody {
  location : string;
  vibe : string;
  budget : string;
  transport : string;
  lat : option Q;
  lng : option Q;
  pageToken : option string
}.

(** One entry of [data.places], with the fields of the field mask. *)
Record Place := mkPlace {
  place_id : string;
  displayName : option string;       (* [displayName?.text] *)
  primaryType : option string;
  types : option (list string);
  priceLevel : option string;
  place_rating : option Q;
  formattedAddress : option string;
  place_location : option (option Q * option Q)
}.

(** The parsed reply of the Places API. *)
Record PlacesData := mkPlacesData {
  places : option (list Place);
  nextPageToken : option string
}.

(** The call sent upstream: url, API key header and JSON body. *)
Record UpstreamRequest := mkUpstreamRequest {
  apiUrl : string;
  apiKey : string;
  fieldMask : string;
  textQuery : string;
  up_priceLevels : option (list string);
  locationRestriction : option (Q * Q * Z);  (* centre and radius *)
  maxResultCount : Z;
  up_pageToken : option string
}.

(** The JSON object of the normal reply; the handler answers with the
    bare static array when the API key is missing. *)
Inductive Payload :=
| Bare (l : list Served)
| Paged (restaurants : list Served) (nextPageToken : option string).

Definition servedOf (p : Payload) : list Served :=
  match p with
  | Bare l => l
  | Paged l _ => l
  end.

(** [priceLevels] from [budget]. *)
Definition priceLevelsOf (budget : string) : list string :=
  if String.eqb budget "low"
  then ["PRICE_LEVEL_FREE"; "PRICE_LEVEL_INEXPENSIVE"]
  else if String.eqb budget "medium"
  then ["PRICE_LEVEL_MODERATE"]
  else if String.eqb budget "high"
  then ["PRICE_LEVEL_EXPENSIVE"; "PRICE_LEVEL_VERY_EXPENSIVE"]
  else [].

(** The [switch] that maps the price level enum to a number. *)
Definition priceNumOf (priceLevel : option string) : Z :=
  match priceLevel with
  | Some "PRICE_LEVEL_FREE" => 0
  | Some "PRICE_LEVEL_INEXPENSIVE" => 1
  | Some "PRICE_LEVEL_MODERATE" => 2
  | Some "PRICE_LEVEL_EXPENSIVE" => 3
  | Some "PRICE_LEVEL_VERY_EXPENSIVE" => 4
  | _ => 1
  end%Z.

(** [s.replace(/_restaurant$/, "")] *)
Definition dropRestaurantSuffix (s : string) : string :=
  let suffix := "_restaurant" in
  let n := String.length s in
  let m := String.length suffix in
  if (m <=? n)%nat && String.eqb (String.substring (n - m) m s) suffix
  then String.substring 0 (n - m) s
  else s.

(** [s.split('_')] *)
Fixpoint splitUnderscore (s : string) : list string :=
  match s with
  | EmptyString => [EmptyString]
  | String a rest =>
      if Ascii.eqb a (Ascii.ascii_of_nat 95)   (* the underscore *)
      then EmptyString :: splitUnderscore rest
      else match splitUnderscore rest with
           | w :: ws => String a w :: ws
           | [] => [String a EmptyString]
           end
  end.

(** [toUpperCase] of one character, for the ASCII letters the place
    types are made of. *)
Definition upper (a : Ascii.ascii) : Ascii.ascii :=
  let n := Ascii.nat_of_ascii a in
  if (97 <=? n)%nat && (n <=? 122)%nat
  then Ascii.ascii_of_nat (n - 32)
  else a.

(** [word.charAt(0).toUpperCase() + word.slice(1)] *)
Definition capitalise (word : string) : string :=
  match word with
  | EmptyString => EmptyString
  | String a rest => String (upper a) rest
  end.

(** "italian_restaurant" -> "Italian" *)
Definition formatCuisine (cuisine : string) : string :=
  String.concat " " (capitalise <$> splitUnderscore (dropRestaurantSuffix cuisine)).

Definition ignoredTypes : list string :=
  ["restaurant"; "food"; "point_of_interest"; "establishment"].

Definition or_else (o : option string) (fallback : string) : string :=
  match o with
  | Some s => if truthy s then s else fallback
  | None => fallback
  end.

Definition or_zero (o : option Q) : Q :=
  match o with
  | Some q => if truthy_num q then q else 0
  | None => 0
  end.

(** The callback of [data.places.map]. *)
Definition transform (vibe : string) (place : Place) : Served :=
  let priceNum := priceNumOf (priceLevel place) in
  let cuisine :=
    or_else
      (types place ≫= List.find (λ t, negb (bool_decide (t ∈ ignoredTypes))))
      (or_else (primaryType place) "Food") in
  let formattedCuisine := formatCuisine cuisine in
  mkServed
    (mkRestaurant (place_id place)
       (or_else (displayName place) "Unknown Spot")
       formattedCuisine
       priceNum
       (or_zero (place_rating place))
       (or_else (formattedAddress place) "Address unavailable")
       vibe
       "Check the menu!"
       (or_zero (place_location place ≫= fst),
        or_zero (place_location place ≫= snd)))
    (priceLevel place).

(** The predicate of the strict post-filter. *)
Definition keeps (priceLevels : list string) (r : Served) : bool :=
  if bool_decide (length priceLevels = 0) then true
  else match raw_price_level r with
       | Some l => bool_decide (l ∈ priceLevels)
       | None => false
       end.

Definition searchText := "https://places.googleapis.com/v1/places:searchText".

Definition theFieldMask :=
  "places.id,places.displayName,places.primaryType,places.types,places.priceLevel,places.rating,places.formattedAddress,places.location".

(** The upstream request the handler builds. *)
Definition upstreamRequest (key : string) (b : RequestBody)
    : UpstreamRequest :=
  let radius := if String.eqb (transport b) "driving" then 11265%Z else 3218%Z in
  let priceLevels := priceLevelsOf (budget b) in
  let sent := match priceLevels with [] => None | _ => Some priceLevels end in
  if truthy_num_opt (lat b) && truthy_num_opt (lng b)
  then
    mkUpstreamRequest searchText key theFieldMask
      (vibe b +:+ " restaurants") sent
      (Some (default 0%Q (lat b), default 0%Q (lng b), radius))
      20 (pageToken b)
  else
    mkUpstreamRequest searchText key theFieldMask
      (vibe b +:+ " restaurants in " +:+ location b) sent
      None 20 (pageToken b).

(** [POST(req)].  [GOOGLE_MAPS_API_KEY] is the environment variable,
    [req] is [None] when [req.json()] throws, and [upstream] is the
    [fetch] of the Places API followed by [res.json()]. *)
Definition POST (GOOGLE_MAPS_API_KEY : option string)
    (req : option RequestBody)
    (upstream : UpstreamRequest → Outcome PlacesData) : Response Payload :=
  match req with
  | None => NextResponse_json (Paged EMERGENCY_LIST None)
  | Some b =>
      match GOOGLE_MAPS_API_KEY with
      | None => NextResponse_json (Bare EMERGENCY_LIST)
      | Some key =>
          if negb (truthy key) then NextResponse_json (Bare EMERGENCY_LIST)
          else
            let priceLevels := priceLevelsOf (budget b) in
            match upstream (upstreamRequest key b) with
            | Threw => NextResponse_json (Paged EMERGENCY_LIST None)
            | Returned data =>
                match places data with
                | None | Some [] =>
                    if truthy_opt (pageToken b)
                    then NextResponse_json (Paged [] None)
                    else NextResponse_json (Paged EMERGENCY_LIST None)
                | Some (p :: ps) =>
                    let restaurants := transform (vibe b) <$> (p :: ps) in
                    let filteredRestaurants :=
                      filter (λ r, keeps priceLevels r = true) restaurants in
                    NextResponse_json
                      (Paged filteredRestaurants
                         (if truthy_opt (nextPageToken data)
                          then nextPageToken data else None))
                end
            end
      end
  end.

End PlacesSearch.


(** ** The rest of the client page, [src/unnamed/part_001] *)

(** The SPIN button: [disabled={loading || spinning || !location}]. *)
Definition spinDisabled (s : Page.State) : bool :=
  Page.loading s || Page.spinning s || negb (truthy (Page.location s)).

Module Geolocation.

(** [data.address] of the reverse geocoding reply. *)
Record Address := mkAddress {
  city : option string;
  town : option string;
  village : option string;
  suburb : option string
}.

(** What the browser does with [handleUseLocation]: it has no
    [navigator.geolocation]; it calls the error callback; or it calls the
    success callback with a position, and the reverse geocoding request then
    yields an address or throws (network error, no [address] field). *)
Inductive Browser :=
| Unsupported
| Refuses
| Locates (latitude longitude : Q) (geocode : Outcome Address).

(** The setter calls of [handleUseLocation]: those of the page, and
    [setCoordinates]. *)
Inductive Effect :=
| onPage (e : Page.Effect)
| setCoordinates (c : option (Q * Q)).

Definition commit (s : Page.State) (e : Effect) : Page.State :=
  match e with
  | onPage e => Page.commit s e
  | setCoordinates c =>
      Page.mkState (Page.location s) c (Page.vibe s) (Page.budget s)
        (Page.transport s) (Page.loading s) (Page.spinning s)
        (Page.restaurants s) (Page.winner s) (Page.skippedCuisines s)
        (Page.nextPageToken s) (Page.seenIds s)
  end.

Definition commits (s : Page.State) (es : list Effect) : Page.State :=
  foldl commit s es.

Definition msg_unsupported := "Geolocation is not supported by your browser".
Definition msg_no_city := "Could not find your city. Please enter it manually.".
Definition msg_no_position := "Unable to retrieve your location".

(** [a.city || a.town || a.village || a.suburb || "Unknown Location"] *)
Definition cityOf (a : Address) : string :=
  PlacesSearch.or_else (city a)
    (PlacesSearch.or_else (town a)
       (PlacesSearch.or_else (village a)
          (PlacesSearch.or_else (suburb a) "Unknown Location"))).

(** [handleUseLocation]; it reads no state. *)
Definition handleUseLocation (nav : Browser) : list Effect :=
  match nav with
  | Unsupported => [onPage (Page.alert msg_unsupported)]
  | Refuses =>
      [onPage (Page.setLoading true); onPage (Page.setLoading false);
       onPage (Page.alert msg_no_position)]
  | Locates latitude longitude geocode =>
      [onPage (Page.setLoading true);
       setCoordinates (Some (latitude, longitude))] ++
      match geocode with
      | Returned address => [onPage (Page.setLocation (cityOf address))]
      | Threw => [onPage (Page.alert msg_no_city)]
      end ++
      [onPage (Page.setLoading false)]
  end.

(** A click on the "use my location" button, followed by the effects of
    the next render. *)
Definition step (s : Page.State) (nav : Browser) : Page.State :=
  Page.useEffect s (commits s (handleUseLocation nav)).

End Geolocation.

(** ** The page against the places-search handler *)

(** The body [handleSpin] serialises, as the handler destructures it. *)
Definition toHandlerBody (r : Page.RequestBody) : PlacesSearch.RequestBody :=
  PlacesSearch.mkRequestBody (Page.req_location r) (Page.req_vibe r)
    (Page.req_budget r) (Page.req_transport r) (Page.req_lat r)
    (Page.req_lng r) (Page.req_pageToken r).

(** What [handleSpin] makes of the reply.  The paged object gives
    [data.restaurants] and [data.nextPageToken]; on the bare array
    [data.restaurants] is undefined and [data.restaurants.filter] throws
    inside the [try], which is the [catch] path. *)
Definition parseReply (r : Response PlacesSearch.Payload)
    : Page.FetchResult :=
  match body r with
  | PlacesSearch.Bare _ => Page.Rejected
  | PlacesSearch.Paged l tok =>
      Page.Resolved (Page.mkData (PlacesSearch.restaurant <$> l) tok)
  end.

(** [/api/restaurants] served by the places-search handler. *)
Definition endpoint (key : option string)
    (upstream : PlacesSearch.UpstreamRequest → Outcome PlacesSearch.PlacesData)
    (r : Page.RequestBody) : Page.FetchResult :=
  parseReply (PlacesSearch.POST key (Some (toHandlerBody r)) upstream).

(** ** The search pages that call the vector-search handler,
       [src/unnamed/part_002] and [src/src/app/page.tsx] *)

Module SearchPage.

Section Items.
(** The entries of the result list, as the page receives them. *)
Variable Item : Type.
(** [String.prototype.trim]. *)
Variable trim : string → string.

Record State := mkState {
  vibe : string;
  pricePreference : string;
  loading : bool;
  restaurants : list Item;
  error : option string
}.

(** The JSON body of the request. *)
Record Request := mkRequest {
  req_vibe : string;
  req_price_preference : string
}.

(** The parsed reply [data]: an array, or anything else, of which only the
    [restaurants] field (if there is one and it is not null) matters. *)
Inductive Reply :=
| ArrayReply (l : list Item)
| OtherReply (restaurants_field : option (list Item)).

(** [Array.isArray(data) ? data : data?.restaurants ?? []] *)
Definition listOf (data : Reply) : list Item :=
  match data with
  | ArrayReply l => l
  | OtherReply o => default [] o
  end.

(** A run of a handler: the requests it sent and the state it leaves. *)
Record Run := mkRun {
  sent : list Request;
  after : State
}.

Definition msg_no_results := "SYSTEM::NO_RESULTS_FOUND".
Definition msg_fault := "SYSTEM_FAULT::CONNECTION_REFUSED".
Definition msg_wrong := "Something went wrong. Please try again.".

(** [handleSearch] of [src/unnamed/part_002]. *)
Definition handleSearch (s : State) (api : Request → Outcome Reply) : Run :=
  if negb (truthy (trim (vibe s))) then mkRun [] s
  else
    (* setLoading(true); setError(null); setRestaurants([]) *)
    let request := mkRequest (trim (vibe s)) (pricePreference s) in
    mkRun [request]
      match api request with
      | Returned data =>
          let list_ := listOf data in
          mkState (vibe s) (pricePreference s) false list_
            (if bool_decide (length list_ = 0) then Some msg_no_results
             else None)
      | Threw =>
          mkState (vibe s) (pricePreference s) false [] (Some msg_fault)
      end.

(** The price buttons of [src/src/app/page.tsx]. *)
Definition priceOptions : list (string * string) :=
  [("low", "$"); ("medium", "$$"); ("high", "$$$"); ("high-plus", "$$$$")].

(** [pricePreference === 'high-plus' ? 'high' : pricePreference] *)
Definition normalizedPricePreference (pricePreference : string) : string :=
  if String.eqb pricePreference "high-plus" then "high" else pricePreference.

(** [handleSearch] of [src/src/app/page.tsx]: the previous list stays on
    screen while loading, and an empty result sets no error. *)
Definition handleSearch_app (s : State) (api : Request → Outcome Reply)
    : Run :=
  if negb (truthy (trim (vibe s))) then mkRun [] s
  else
    let request :=
      mkRequest (trim (vibe s))
        (normalizedPricePreference (pricePreference s)) in
    mkRun [request]
      match api request with
      | Returned data =>
          mkState (vibe s) (pricePreference s) false (listOf data) None
      | Threw =>
          mkState (vibe s) (pricePreference s) false [] (Some msg_wrong)
      end.
End Items.

Arguments mkState {Item} vibe pricePreference loading restaurants error.
Arguments vibe {Item} s.
Arguments pricePreference {Item} s.
Arguments loading {Item} s.
Arguments restaurants {Item} s.
Arguments error {Item} s.
Arguments ArrayReply {Item} l.
Arguments OtherReply {Item} restaurants_field.
Arguments listOf {Item} data.
Arguments mkRun {Item} sent after.
Arguments sent {Item} r.
Arguments after {Item} r.
Arguments handleSearch {Item} trim s api.
Arguments handleSearch_app {Item} trim s api.

End SearchPage.

(** [/api/restaurants] served by the vector-search handler: the JSON array
    of the reply, static entries or RPC rows. *)
Definition vectorEndpoint {Row : Type}
    (embed : string → Outcome (option (list VectorSearch.EmbeddingItem)))
    (rpc : VectorSearch.RpcArgs → Outcome (VectorSearch.RpcReply Row))
    (r : SearchPage.Request) : Outcome (SearchPage.Reply (Restaurant + Row)) :=
  Returned
    (SearchPage.ArrayReply
       match body (VectorSearch.POST
                     (Some (VectorSearch.mkRequestBody
                              (JString (SearchPage.req_vibe r))
                              (JString (SearchPage.req_price_preference r))))
                     embed rpc) with
       | VectorSearch.Static l => inl <$> l
       | VectorSearch.Rows l => inr <$> l
       end).

(** ** Sample data used by the examples *)

Definition spot (i c : string) : Restaurant :=
  mkRestaurant i i c 2 (4 # 1) "Main Street" "cozy" "Check the menu!"
    (0%Q, 0%Q).

(** A page whose filters are filled in and whose pool is still empty. *)
Definition searching : Page.State :=
  Page.mkState "Paris" None "cozy" "medium" "driving" false false [] None ∅
    None ∅.

(** An endpoint that answers every request with the same page. *)
Definition page_of (l : list Restaurant) (tok : option string)
    (_ : Page.RequestBody) : Page.FetchResult :=
  Page.Resolved (Page.mkData l tok).

Definition three_A : list Restaurant :=
  [spot "a1" "A"; spot "a2" "A"; spot "a3" "A"].

Definition three_A_one_B : list Restaurant :=
  [spot "a1" "A"; spot "a2" "A"; spot "a3" "A"; spot "b1" "B"].

(** A vector-search request and collaborators that work or fail. *)
Definition cozy_medium : VectorSearch.RequestBody :=
  VectorSearch.mkRequestBody (JString "cozy") (JString "medium").

Definition embed_ok (_ : string)
    : Outcome (option (list VectorSearch.EmbeddingItem)) :=
  Returned (Some [VectorSearch.mkEmbeddingItem (Some [1 # 2; 1 # 3])]).

Definition embed_nothing (_ : string)
    : Outcome (option (list VectorSearch.EmbeddingItem)) :=
  Returned (Some []).

Definition rpc_rows (rows : option (list string)) (err : option string)
    (_ : VectorSearch.RpcArgs) : Outcome (VectorSearch.RpcReply string) :=
  Returned (VectorSearch.mkRpcReply rows err).

(** A places-search request for the second page, one for the first page,
    and upstream replies. *)
Definition next_page : PlacesSearch.RequestBody :=
  PlacesSearch.mkRequestBody "Paris" "cozy" "medium" "driving" None None
    (Some "tok").

Definition first_page : PlacesSearch.RequestBody :=
  PlacesSearch.mkRequestBody "Paris" "cozy" "medium" "driving" None None None.

Definition upstream_of (l : option (list PlacesSearch.Place))
    (tok : option string) (_ : PlacesSearch.UpstreamRequest)
    : Outcome PlacesSearch.PlacesData :=
  Returned (PlacesSearch.mkPlacesData l tok).

Definition cheap_place : PlacesSearch.Place :=
  PlacesSearch.mkPlace "p1" (Some "Chez Cheap") None
    (Some ["french_restaurant"; "restaurant"])
    (Some "PRICE_LEVEL_INEXPENSIVE") (Some (4 # 1)) (Some "1 Rue A") None.

Definition moderate_place : PlacesSearch.Place :=
  PlacesSearch.mkPlace "p2" (Some "Chez Moyen") None
    (Some ["restaurant"; "italian_restaurant"])
    (Some "PRICE_LEVEL_MODERATE") (Some (9 # 2)) (Some "2 Rue B") None.

(** ** Relations used to state the properties *)

(** [s'] keeps the filters of [s], has at least its seen ids and its pool
    as a prefix, and every seen id of [s'] was seen in [s] or is the id of a
    restaurant of the pool of [s']. *)
Definition extends (s s' : Page.State) : Prop :=
  Page.filterDeps s' = Page.filterDeps s ∧
  Page.seenIds s ⊆ Page.seenIds s' ∧
  Page.restaurants s `prefix_of` Page.restaurants s' ∧
  (∀ i, i ∈ Page.seenIds s' →
        i ∈ Page.seenIds s ∨ i ∈ Page.ids (Page.restaurants s')).

(** If the action fetches a page, the items of that page that [handleSpin]
    appends to the pool (those that pass the skip-count filter and whose id
    is not in the pool) do not repeat an id.  Ids that are already in the
    pool may occur in the page any number of times. *)
Definition freshIdsDistinct (s : Page.State) (a : Page.Action) : Prop :=
  match a with
  | Page.Spin _ api | Page.Skip _ api =>
      Page.fetches (Page.handle a s) ≠ [] →
      ∀ data, api (Page.spinRequest s) = Page.Resolved data →
              NoDup (Page.ids
                       (Page.notInPool (Page.restaurants s)
                          (Page.notSkippedTwice (Page.skippedCuisines s)
                             (Page.data_restaurants data))))
  | _ => True
  end.

(** [freshIdsDistinct] holds of every action of the sequence, in the state
    the action is taken in. *)
Fixpoint distinctAlong (s : Page.State) (acts : list Page.Action) : Prop :=
  match acts with
  | [] => True
  | a :: rest => freshIdsDistinct s a ∧ distinctAlong (Page.step s a) rest
  end.

Definition twice_x : list Restaurant := [spot "x" "A"; spot "x" "A"].

(** A page that lists "x" twice and "y" once. *)
Definition x_x_y : list Restaurant :=
  [spot "x" "A"; spot "x" "A"; spot "y" "B"].

(** The action is a filter input whose value differs from the current
    one. *)
Definition changesFilter (a : Page.Action) (s : Page.State) : Prop :=
  match a with
  | Page.ChangeLocation v => v ≠ Page.location s
  | Page.ChangeVibe v => v ≠ Page.vibe s
  | Page.ChangeBudget v => v ≠ Page.budget s
  | Page.ChangeTransport v => v ≠ Page.transport s
  | _ => False
  end.

(** A session on [three_A]: the first spin fetches the page and shows
    "a1"; two skips follow. *)
Definition skip_twice : list Page.Action :=
  [Page.Spin 0 (page_of three_A None);
   Page.Skip 0 (page_of [] None);
   Page.Skip 0 (page_of [] None)].

(** A session on [three_A_one_B]: "a1" is shown and skipped, "a2" is shown
    and skipped, "b1" is shown, and the user goes back to the form. *)
Definition skip_twice_then_back : list Page.Action :=
  [Page.Spin 0 (page_of three_A_one_B None);
   Page.Skip 0 (page_of [] None);
   Page.Skip 0 (page_of [] None);
   Page.StartOver].

(** The pool is the single restaurant "x", it has been shown, and a page
    token is pending. *)
(** The three restaurants of [three_A] have been shown, cuisine "A" was
    skipped twice, a page token is pending and the form is back. *)
Definition exhausted_A : Page.State :=
  Page.run searching
    [Page.Spin 0 (page_of three_A (Some "p2"));
     Page.Skip 0 (page_of [] None);
     Page.Skip 0 (page_of [] None);
     Page.StartOver].

Definition all_seen : Page.State :=
  Page.run searching
    [Page.Spin 0 (page_of [spot "x" "A"] (Some "p2")); Page.StartOver].

(** ** Properties of the client page *)

Section PageFacts.
Import Page.

Lemma randomOf_elem {A} (rnd : nat) (d : A) (tl : list A) :
  randomOf rnd d tl ∈ d :: tl.
Proof.
  unfold randomOf. apply list_elem_of_In, nth_In.
  change (length (d :: tl)) with (S (length tl)).
  apply Nat.mod_upper_bound. lia.
Qed.

Lemma unseenOf_elem seen pool r :
  r ∈ unseenOf seen pool ↔ (id r ∉ seen) ∧ r ∈ pool.
Proof. unfold unseenOf. by rewrite list_elem_of_filter. Qed.

(** The restaurant drawn by [randomOf] comes from the list it was drawn
    from, which the context names in an equation. *)
Ltac picked :=
  match goal with
  | H : _ = ?d :: ?tl |- context [randomOf ?rnd ?d ?tl] =>
      let He := fresh "He" in
      pose proof (randomOf_elem rnd d tl) as He;
      rewrite <- H in He;
      try apply unseenOf_elem in He as [_ He];
      try rewrite app_nil_r in *;
      set_solver
  end.

Lemma extends_refl s : extends s s.
Proof. unfold extends. set_solver. Qed.

Lemma extends_trans s1 s2 s3 : extends s1 s2 → extends s2 s3 → extends s1 s3.
Proof.
  intros (Hf1 & Hs1 & Hp1 & Hi1) (Hf2 & Hs2 & Hp2 & Hi2).
  repeat split.
  - congruence.
  - set_solver.
  - by etrans.
  - intros i Hi. destruct (Hi2 i Hi) as [H|H]; [|by right].
    destruct (Hi1 i H) as [H'|H']; [by left|right].
    destruct Hp2 as [k ->]. unfold ids in *. rewrite fmap_app.
    set_solver.
Qed.

Lemma elem_ids (r : Restaurant) (l : list Restaurant) :
  r ∈ l → id r ∈ ids l.
Proof. intros H. unfold ids. by apply list_elem_of_fmap_2. Qed.

(** Whatever [handleSpin] queues in the closure [c], committing it on a
    state with the pool and the seen ids of [c] only extends them. *)
Lemma handleSpin_extends c s rnd api :
  restaurants s = restaurants c →
  seenIds s = seenIds c →
  extends s (commits s (handleSpin c rnd api)).
Proof.
  intros Hr Hs. unfold handleSpin, extends.
  repeat case_match; simpl; rewrite ?Hr, ?Hs.
  all: repeat split; try done; try set_solver; try (by apply prefix_app_r).
  all: intros i [Hi| ->%elem_of_singleton]%elem_of_union; [by left|right].
  all: apply elem_ids; picked.
Qed.

Lemma handleSkip_extends c rnd api :
  extends c (commits c (handleSkip c rnd api)).
Proof.
  unfold handleSkip. destruct (winner c) as [w|]; [|apply extends_refl].
  case_match.
  - change (commits c (?e :: ?es)) with (commits (commit c e) es).
    eapply extends_trans; [|by apply handleSpin_extends].
    unfold extends. simpl. set_solver.
  - unfold extends, availableAfterSkip in *. simpl.
    repeat split; try done; try set_solver.
    intros i [Hi| ->%elem_of_singleton]%elem_of_union; [by left|right].
    apply elem_ids.
    match goal with
    | H : _ = ?d :: ?tl |- _ =>
        pose proof (randomOf_elem rnd d tl) as He; rewrite <- H in He
    end.
    by apply list_elem_of_filter in He as [_ He].
Qed.

Lemma useEffect_same prev s :
  filterDeps s = filterDeps prev → useEffect prev s = s.
Proof. intros H. unfold useEffect. by rewrite decide_True. Qed.

(** An action that is not a filter input only extends the state. *)
Lemma handle_extends s a :
  keepsFilters a = true → extends s (commits s (handle a s)).
Proof.
  intros Ha. destruct a; try discriminate Ha; simpl.
  - by apply handleSpin_extends.
  - apply handleSkip_extends.
  - unfold extends. simpl. set_solver.
Qed.

Lemma step_keepsFilters s a :
  keepsFilters a = true → step s a = commits s (handle a s).
Proof.
  intros Ha. unfold step. apply useEffect_same.
  apply (handle_extends s a Ha).
Qed.

Lemma step_extends s a : keepsFilters a = true → extends s (step s a).
Proof.
  intros Ha. rewrite step_keepsFilters by done. by apply handle_extends.
Qed.

Lemma run_app s acts1 acts2 :
  run s (acts1 ++ acts2) = run (run s acts1) acts2.
Proof. unfold run. apply foldl_app. Qed.

Lemma run_extends s acts :
  Forall (λ a, keepsFilters a = true) acts → extends s (run s acts).
Proof.
  intros H. revert s. induction H as [|a acts Ha _ IH]; intros s.
  - apply extends_refl.
  - simpl. eapply extends_trans; [by apply step_extends|apply IH].
Qed.

(** C6.  With the filter set held fixed, along every sequence of spins,
    skips and "start over" clicks the set of seen ids only grows (the seen
    ids at any point of the sequence are still seen at every later point),
    the pool only grows too, and, starting from a state whose seen ids
    are ids of the pool, every seen id is the id of a restaurant that is
    in the pool. *)
Theorem seen_ids_grow_within_pool (s : State) (acts1 acts2 : list Action) :
  Forall (λ a, keepsFilters a = true) (acts1 ++ acts2) →
  (∀ i, i ∈ seenIds s → i ∈ ids (restaurants s)) →
  seenIds (run s acts1) ⊆ seenIds (run s (acts1 ++ acts2)) ∧
  restaurants (run s acts1) `prefix_of` restaurants (run s (acts1 ++ acts2)) ∧
  (∀ i, i ∈ seenIds (run s (acts1 ++ acts2)) →
        i ∈ ids (restaurants (run s (acts1 ++ acts2)))).
Proof.
  intros Hacts Hinv.
  apply Forall_app in Hacts as [H1 H2].
  pose proof (run_extends s (acts1 ++ acts2)) as (_ & _ & Hp & Hi).
  { by apply Forall_app. }
  rewrite run_app in *.
  destruct (run_extends (run s acts1) acts2 H2) as (_ & Hs & Hp' & _).
  repeat split; try done.
  intros i Hin. destruct (Hi i Hin) as [Hold|Hnew]; [|done].
  destruct Hp as [k ->]. unfold ids. rewrite fmap_app.
  apply elem_of_app. left. by apply Hinv.
Qed.

Lemma seen_ids_grow_within_pool_witness :
  seenIds (run searching [Spin 0 (page_of three_A None)])
    ⊆ seenIds
        (run searching
           ([Spin 0 (page_of three_A None)]
            ++ [Skip 1 (page_of [] None); Skip 0 (page_of [] None)])) ∧
  restaurants (run searching [Spin 0 (page_of three_A None)])
    `prefix_of`
    restaurants
      (run searching
         ([Spin 0 (page_of three_A None)]
          ++ [Skip 1 (page_of [] None); Skip 0 (page_of [] None)])) ∧
  (∀ i,
     i ∈ seenIds
           (run searching
              ([Spin 0 (page_of three_A None)]
               ++ [Skip 1 (page_of [] None); Skip 0 (page_of [] None)])) →
     i ∈ ids
           (restaurants
              (run searching
                 ([Spin 0 (page_of three_A None)]
                  ++ [Skip 1 (page_of [] None); Skip 0 (page_of [] None)])))).
Proof.
  apply (seen_ids_grow_within_pool searching
           [Spin 0 (page_of three_A None)]
           [Skip 1 (page_of [] None); Skip 0 (page_of [] None)]).
  - repeat constructor.
  - simpl. intros i Hi. by apply not_elem_of_empty in Hi.
Defined.

(** *** The pool *)

Lemma notInPool_fresh pool items r :
  r ∈ notInPool pool items → id r ∉ ids pool.
Proof.
  unfold notInPool. rewrite list_elem_of_filter. intros [Hn _] Hin.
  apply Hn. unfold ids in Hin.
  apply list_elem_of_fmap in Hin as (e & He & Hin).
  apply Exists_exists. by exists e.
Qed.

Lemma handleSpin_pool c s rnd api :
  restaurants s = restaurants c →
  restaurants (commits s (handleSpin c rnd api)) = restaurants c ∨
  ∃ data,
    api (spinRequest c) = Resolved data ∧
    restaurants (commits s (handleSpin c rnd api)) =
      restaurants c
      ++ notInPool (restaurants c)
           (notSkippedTwice (skippedCuisines c) (data_restaurants data)).
Proof.
  intros Hr. unfold handleSpin.
  repeat case_match; simpl; try (by left).
  all: right; eexists; split; [reflexivity|]; congruence.
Qed.

Lemma handleSkip_pool c rnd api :
  restaurants (commits c (handleSkip c rnd api)) = restaurants c ∨
  ∃ data,
    api (spinRequest c) = Resolved data ∧
    restaurants (commits c (handleSkip c rnd api)) =
      restaurants c
      ++ notInPool (restaurants c)
           (notSkippedTwice (skippedCuisines c) (data_restaurants data)).
Proof.
  unfold handleSkip. destruct (winner c) as [w|]; [|by left].
  case_match; [|by left].
  change (commits c (?e :: ?es)) with (commits (commit c e) es).
  by apply handleSpin_pool.
Qed.

(** The pool after one action: emptied (a filter changed), unchanged, or
    the old pool followed by the items of the fetched page that passed
    both filters of [handleSpin]. *)
Lemma step_pool s a :
  restaurants (step s a) = [] ∨
  restaurants (step s a) = restaurants s ∨
  ∃ rnd api data,
    (a = Spin rnd api ∨ a = Skip rnd api) ∧
    api (spinRequest s) = Resolved data ∧
    restaurants (step s a) =
      restaurants s
      ++ notInPool (restaurants s)
           (notSkippedTwice (skippedCuisines s) (data_restaurants data)).
Proof.
  destruct (keepsFilters a) eqn:Ha.
  - right. rewrite step_keepsFilters by done.
    destruct a; try discriminate Ha; simpl.
    + destruct (handleSpin_pool s s rnd api eq_refl) as [H|(d & H1 & H2)];
        [by left|right]. exists rnd, api, d. auto.
    + destruct (handleSkip_pool s rnd api) as [H|(d & H1 & H2)];
        [by left|right]. exists rnd, api, d. auto.
    + by left.
  - unfold step, useEffect.
    destruct a; try discriminate Ha; simpl; case_decide; simpl; auto.
Qed.

Lemma NoDup_append_fresh pool sk items :
  NoDup (ids pool) → NoDup (ids items) →
  NoDup (ids (pool ++ notInPool pool (notSkippedTwice sk items))).
Proof.
  intros Hp Hi. unfold ids. rewrite fmap_app. apply NoDup_app.
  split; [done|]. split.
  - intros i Hin Hin'. apply list_elem_of_fmap in Hin' as (r & -> & Hr).
    by apply notInPool_fresh in Hr.
  - eapply sublist_NoDup; [exact Hi|].
    apply fmap_sublist. unfold notInPool, notSkippedTwice.
    etrans; apply sublist_filter.
Qed.

Lemma filter_none {A} (P : A → Prop) `{!∀ x, Decision (P x)} (l : list A) :
  (∀ x, x ∈ l → ¬ P x) → filter P l = [].
Proof.
  induction l as [|x l IH]; intros Hall; [done|].
  rewrite filter_cons, decide_False by (apply Hall; left).
  apply IH. intros y Hy. apply Hall. by right.
Qed.

Lemma filter_id_append_fresh pool items i :
  i ∈ ids pool →
  filter (λ r, id r = i) (pool ++ notInPool pool items)
  = filter (λ r, id r = i) pool.
Proof.
  intros Hi. rewrite filter_app.
  rewrite (filter_none _ (notInPool pool items)).
  - apply app_nil_r.
  - intros r Hr <-. by apply notInPool_fresh in Hr.
Qed.

(** The pool after [handleSpin]: unchanged, or, after a fetch that was
    answered with a page, the old pool followed by the items of the page
    that passed both filters. *)
Lemma handleSpin_pool_fetch c s rnd api :
  restaurants s = restaurants c →
  restaurants (commits s (handleSpin c rnd api)) = restaurants c ∨
  ∃ data,
    fetches (handleSpin c rnd api) ≠ [] ∧
    api (spinRequest c) = Resolved data ∧
    restaurants (commits s (handleSpin c rnd api)) =
      restaurants c
      ++ notInPool (restaurants c)
           (notSkippedTwice (skippedCuisines c) (data_restaurants data)).
Proof.
  intros Hr. unfold handleSpin.
  repeat case_match; simpl; try (by left).
  all: right; eexists; split; [discriminate|];
    split; [reflexivity|]; congruence.
Qed.

(** After a fetch that was answered with a page, the items that passed
    both filters are in the pool, unless there were none. *)
Lemma handleSpin_fetch_appends c s rnd api data :
  fetches (handleSpin c rnd api) ≠ [] →
  api (spinRequest c) = Resolved data →
  restaurants (commits s (handleSpin c rnd api)) =
    restaurants c
    ++ notInPool (restaurants c)
         (notSkippedTwice (skippedCuisines c) (data_restaurants data)) ∨
  notInPool (restaurants c)
    (notSkippedTwice (skippedCuisines c) (data_restaurants data)) = [].
Proof.
  intros Hf Hapi. revert Hf. unfold handleSpin. rewrite Hapi.
  destruct (negb (truthy (location c)) && _); [done|].
  destruct (negb (truthy (vibe c))); [done|].
  destruct (unseenOf (seenIds c) (restaurants c)); [|done].
  destruct (_ || _); [|done]. intros _.
  destruct (notSkippedTwice _ _) as [|n ns]; [by right|].
  destruct (notInPool _ _) as [|u us]; [by right|].
  left. simpl. by repeat case_match.
Qed.

Lemma handle_pool_fetch s a :
  keepsFilters a = true →
  restaurants (step s a) = restaurants s ∨
  ∃ rnd api data,
    (a = Spin rnd api ∨ a = Skip rnd api) ∧
    fetches (handle a s) ≠ [] ∧
    api (spinRequest s) = Resolved data ∧
    restaurants (step s a) =
      restaurants s
      ++ notInPool (restaurants s)
           (notSkippedTwice (skippedCuisines s) (data_restaurants data)).
Proof.
  intros Ha. rewrite step_keepsFilters by done.
  destruct a; try discriminate Ha; simpl.
  - destruct (handleSpin_pool_fetch s s rnd api eq_refl)
      as [H|(d & Hf & H1 & H2)]; [by left|right].
    exists rnd, api, d. auto.
  - unfold handleSkip. destruct (winner s) as [w|]; [|by left].
    case_match; [|by left].
    change (commits s (?e :: ?es)) with (commits (commit s e) es).
    change (fetches (?e :: ?es)) with (fetches es).
    destruct (handleSpin_pool_fetch s
                (commit s
                   (setSkippedCuisines
                      (λ prev, <[cuisine w := skipCount prev (cuisine w) + 1]>
                                 prev)))
                rnd api eq_refl)
      as [H'|(d & Hf & H1 & H2)]; [by left|right].
    exists rnd, api, d. auto.
  - by left.
Qed.

Lemma handle_fetch_appends s a rnd api data :
  a = Spin rnd api ∨ a = Skip rnd api →
  fetches (handle a s) ≠ [] →
  api (spinRequest s) = Resolved data →
  restaurants (step s a) =
    restaurants s
    ++ notInPool (restaurants s)
         (notSkippedTwice (skippedCuisines s) (data_restaurants data)) ∨
  notInPool (restaurants s)
    (notSkippedTwice (skippedCuisines s) (data_restaurants data)) = [].
Proof.
  intros Ha Hf Hapi.
  rewrite step_keepsFilters by (by destruct Ha as [-> | ->]).
  destruct Ha as [-> | ->]; simpl in *.
  - by apply handleSpin_fetch_appends.
  - revert Hf. unfold handleSkip. destruct (winner s) as [w|]; [|done].
    case_match; [|done].
    change (fetches (?e :: ?es)) with (fetches es).
    change (commits s (?e :: ?es)) with (commits (commit s e) es).
    intros Hf. by apply handleSpin_fetch_appends.
Qed.

(** C2 (as amended).  A spin or skip keeps the pool free of repeated ids
    exactly when the pool was free of them and the items it appends from a
    fetched page (those that pass the skip-count filter and whose id is not
    yet in the pool) do not repeat an id; ids that are already in the pool
    may be repeated in the page at will.  So the pool holds no id twice
    after any sequence of actions along which no fetched page repeats a
    new id.  And whatever the fetched page contains, a spin or skip keeps
    the entries of every id that was already in the pool exactly as they
    were. *)
Theorem pool_ids_distinct_across_pages :
  (∀ s a,
     keepsFilters a = true →
     NoDup (ids (restaurants (step s a))) ↔
     NoDup (ids (restaurants s)) ∧ freshIdsDistinct s a) ∧
  (∀ s acts,
     NoDup (ids (restaurants s)) → distinctAlong s acts →
     NoDup (ids (restaurants (run s acts)))) ∧
  (∀ s a i,
     keepsFilters a = true → i ∈ ids (restaurants s) →
     filter (λ r, id r = i) (restaurants (step s a))
     = filter (λ r, id r = i) (restaurants s)).
Proof.
  assert (∀ s a,
            keepsFilters a = true →
            NoDup (ids (restaurants s)) → freshIdsDistinct s a →
            NoDup (ids (restaurants (step s a)))) as Hstep.
  { intros s a Ha Hs Hfresh.
    destruct (handle_pool_fetch s a Ha)
      as [->|(rnd & api & d & Hk & Hf & Hd & ->)]; [done|].
    unfold ids. rewrite fmap_app. apply NoDup_app.
    split; [done|]. split.
    - intros i Hin Hin'. apply list_elem_of_fmap in Hin' as (r & -> & Hr).
      by apply notInPool_fresh in Hr.
    - destruct Hk as [-> | ->]; by apply Hfresh. }
  split; [|split].
  - intros s a Ha. split; [|by intros [Hs Hfresh]; apply Hstep].
    intros Hn. split.
    + destruct (step_extends s a Ha) as (_ & _ & [k Hk] & _).
      rewrite Hk in Hn. unfold ids in Hn. rewrite fmap_app in Hn.
      by apply NoDup_app in Hn as [Hn _].
    + destruct a; try done; simpl; intros Hf data Hd.
      * destruct (handle_fetch_appends s (Spin rnd api) rnd api data)
          as [Hp| ->]; [by left|done|done| |constructor].
        rewrite Hp in Hn. unfold ids in Hn. rewrite fmap_app in Hn.
        by apply NoDup_app in Hn as (_ & _ & Hn).
      * destruct (handle_fetch_appends s (Skip rnd api) rnd api data)
          as [Hp| ->]; [by right|done|done| |constructor].
        rewrite Hp in Hn. unfold ids in Hn. rewrite fmap_app in Hn.
        by apply NoDup_app in Hn as (_ & _ & Hn).
  - intros s acts. revert s.
    induction acts as [|a acts IH]; intros s Hs Hacts; [done|].
    destruct Hacts as [Ha Hacts]. simpl. apply IH; [|done].
    destruct (keepsFilters a) eqn:Hk; [by apply Hstep|].
    destruct (step_pool s a) as [->|[->|(rnd & api & d & Hsp & _)]];
      [constructor|done|].
    destruct Hsp as [-> | ->]; discriminate Hk.
  - intros s a i Ha Hi.
    destruct (step_pool s a) as [H|[->|(rnd & api & d & Hk & Hd & ->)]];
      [|done|by apply filter_id_append_fresh].
    destruct (step_extends s a Ha) as (_ & _ & [k Hk] & _).
    rewrite H in Hk. symmetry in Hk. apply app_eq_nil in Hk as [Hk _].
    by rewrite H, Hk.
Qed.

(** The witness fetches the page "x", "x", "y" onto the pool ["x"]: the
    repeated "x" is dropped against the pool and "y" is appended. *)
Lemma pool_ids_distinct_across_pages_witness :
  fetches (handleSpin all_seen 0 (page_of x_x_y None))
    = [spinRequest all_seen] ∧
  ids (restaurants all_seen) = ["x"] ∧
  ids (restaurants (step all_seen (Spin 0 (page_of x_x_y None))))
    = ["x"; "y"] ∧
  (NoDup (ids (restaurants (step all_seen (Spin 0 (page_of x_x_y None)))))
   ↔ NoDup (ids (restaurants all_seen))
     ∧ freshIdsDistinct all_seen (Spin 0 (page_of x_x_y None))) ∧
  NoDup (ids (restaurants
                (run searching
                   [Spin 0 (page_of [spot "x" "A"] (Some "p2"));
                    StartOver;
                    Spin 0 (page_of x_x_y None)]))) ∧
  filter (λ r, id r = "x")
    (restaurants (step all_seen (Spin 0 (page_of x_x_y None))))
  = filter (λ r, id r = "x") (restaurants all_seen).
Proof.
  split; [vm_compute; reflexivity|].
  split; [vm_compute; reflexivity|].
  split; [vm_compute; reflexivity|].
  split; [|split].
  - apply (proj1 pool_ids_distinct_across_pages all_seen
             (Spin 0 (page_of x_x_y None))).
    reflexivity.
  - apply (proj1 (proj2 pool_ids_distinct_across_pages) searching).
    + apply (bool_decide_unpack _). vm_compute. reflexivity.
    + cbn [distinctAlong freshIdsDistinct].
      split; [|split; [exact I|split; [|exact I]]].
      all: unfold page_of; intros _ data [= <-].
      all: apply (bool_decide_unpack _); vm_compute; reflexivity.
  - apply (proj2 (proj2 pool_ids_distinct_across_pages)).
    + reflexivity.
    + apply (bool_decide_unpack _). vm_compute. reflexivity.
Defined.

(** C2, counterexample.  A first page that lists the same id twice puts
    that id into the pool twice. *)
Lemma pool_ids_repeat_within_page :
  ids (restaurants (run searching [Spin 0 (page_of twice_x None)]))
    = ["x"; "x"] ∧
  ¬ NoDup (ids (restaurants (run searching [Spin 0 (page_of twice_x None)]))).
Proof.
  assert (ids (restaurants (run searching [Spin 0 (page_of twice_x None)]))
          = ["x"; "x"]) as H by (vm_compute; reflexivity).
  split; [exact H|]. rewrite H. intros Hn.
  apply NoDup_cons in Hn as [Hn _]. apply Hn. by left.
Qed.

(** *** Exhausted cuisines *)

(** The two sibling paths do leave out the cuisines skipped twice: the
    draw of [handleSkip] from the pool, under the updated counters, and
    the items [handleSpin] keeps from a fetched page. *)
Lemma skip_draw_not_exhausted updatedSkipped w seen pool rnd d tl :
  availableAfterSkip updatedSkipped w seen pool = d :: tl →
  skipCount updatedSkipped (cuisine (randomOf rnd d tl)) < 2.
Proof.
  intros H. pose proof (randomOf_elem rnd d tl) as He. rewrite <- H in He.
  unfold availableAfterSkip in He.
  by apply list_elem_of_filter in He as [[Hc _] _].
Qed.

Lemma fetched_not_exhausted skipped items r :
  r ∈ notSkippedTwice skipped items → skipCount skipped (cuisine r) < 2.
Proof.
  unfold notSkippedTwice. by intros [Hc _]%list_elem_of_filter.
Qed.

(** C1, the failing runs.  After two skips of cuisine "A" its counter is
    2, and the next spin, which makes no fetch, shows "a3" of cuisine
    "A"; the same happens inside the second skip itself when the pool
    holds nothing else. *)
Theorem exhausted_cuisine_offered_again :
  skippedCuisines (run searching skip_twice_then_back) !! "A" = Some 2 ∧
  fetches (handleSpin (run searching skip_twice_then_back) 0
             (page_of [] None)) = [] ∧
  winner (step (run searching skip_twice_then_back)
            (Spin 0 (page_of [] None))) = Some (spot "a3" "A") ∧
  skippedCuisines (run searching skip_twice) !! "A" = Some 2 ∧
  winner (run searching skip_twice) = Some (spot "a3" "A").
Proof. repeat split; vm_compute; reflexivity. Qed.

(** *** Filter changes *)

(** C3 (as amended).  An input that changes the location, the vibe, the
    budget or the transport empties the pool, the seen ids and the page
    token (and clears the winner); the skip counters keep their values. *)
Theorem filter_change_resets_pool_keeps_skips (s : State) (a : Action) :
  changesFilter a s →
  restaurants (step s a) = [] ∧
  seenIds (step s a) = ∅ ∧
  nextPageToken (step s a) = None ∧
  winner (step s a) = None ∧
  skippedCuisines (step s a) = skippedCuisines s.
Proof.
  intros Hc. unfold step, useEffect.
  destruct a; simpl in Hc; try done; simpl.
  all: rewrite decide_False; [done|].
  all: unfold filterDeps; simpl; congruence.
Qed.

Lemma filter_change_resets_pool_keeps_skips_witness :
  restaurants (step (run searching skip_twice) (ChangeVibe "spicy")) = [] ∧
  seenIds (step (run searching skip_twice) (ChangeVibe "spicy")) = ∅ ∧
  nextPageToken (step (run searching skip_twice) (ChangeVibe "spicy"))
    = None ∧
  winner (step (run searching skip_twice) (ChangeVibe "spicy")) = None ∧
  skippedCuisines (step (run searching skip_twice) (ChangeVibe "spicy"))
    = skippedCuisines (run searching skip_twice).
Proof.
  apply (filter_change_resets_pool_keeps_skips
           (run searching skip_twice) (ChangeVibe "spicy")).
  vm_compute. discriminate.
Defined.

(** C3, counterexample.  After two skips of cuisine "A", changing the
    vibe leaves the counter of "A" at 2: the skip counters are not
    reset. *)
Lemma filter_change_keeps_skip_counters :
  vibe (run searching skip_twice) ≠ "spicy" ∧
  skippedCuisines (step (run searching skip_twice) (ChangeVibe "spicy"))
    !! "A" = Some 2 ∧
  skippedCuisines (step (run searching skip_twice) (ChangeVibe "spicy"))
    ≠ ∅.
Proof.
  assert (skippedCuisines
            (step (run searching skip_twice) (ChangeVibe "spicy"))
            !! "A" = Some 2) as H by (vm_compute; reflexivity).
  split; [vm_compute; discriminate|]. split; [exact H|].
  revert H.
  generalize (skippedCuisines
                (step (run searching skip_twice) (ChangeVibe "spicy"))).
  intros g H ->. by rewrite lookup_empty in H.
Qed.

(** *** Empty batches *)

(** C4 (as amended).  When [handleSpin] fetches and the page comes back
    with a page token, and nothing of the page is left after dropping the
    cuisines skipped twice and the ids already in the pool, then exactly
    one request was made, the page token of the reply is stored, and the
    pool, the seen ids and the (cleared) winner are left alone; the alert
    is the "spin again" one when dropping the cuisines skipped twice
    alone already empties the page. *)
Theorem empty_batch_stores_token (c : State) (rnd : nat)
    (api : RequestBody → FetchResult) (items : list Restaurant)
    (tok : option string) :
  fetches (handleSpin c rnd api) ≠ [] →
  api (spinRequest c) = Resolved (mkData items tok) →
  truthy_opt tok = true →
  notInPool (restaurants c) (notSkippedTwice (skippedCuisines c) items)
    = [] →
  fetches (handleSpin c rnd api) = [spinRequest c] ∧
  nextPageToken (step c (Spin rnd api)) = tok ∧
  restaurants (step c (Spin rnd api)) = restaurants c ∧
  seenIds (step c (Spin rnd api)) = seenIds c ∧
  winner (step c (Spin rnd api)) = None ∧
  (notSkippedTwice (skippedCuisines c) items = [] →
   alerts (handleSpin c rnd api) = [msg_spin_again]).
Proof.
  intros Hf Hapi Htok Hempty.
  rewrite step_keepsFilters by done. simpl handle.
  revert Hf. unfold handleSpin. rewrite Hapi. simpl data_restaurants.
  simpl data_nextPageToken. rewrite Htok.
  destruct (negb (truthy (location c)) && _); [done|].
  destruct (negb (truthy (vibe c))); [done|].
  destruct (unseenOf (seenIds c) (restaurants c)) eqn:Hunseen; [|done].
  destruct (_ || _); [|done]. intros _.
  destruct (notSkippedTwice (skippedCuisines c) items) eqn:Hnew.
  - simpl. by destruct c.
  - rewrite Hempty. simpl. rewrite app_nil_r, Hunseen. simpl.
    repeat split; done.
Qed.

Lemma empty_batch_stores_token_witness :
  fetches (handleSpin exhausted_A 0 (page_of [spot "a4" "A"] (Some "p3")))
    = [spinRequest exhausted_A] ∧
  nextPageToken
    (step exhausted_A (Spin 0 (page_of [spot "a4" "A"] (Some "p3"))))
    = Some "p3" ∧
  restaurants
    (step exhausted_A (Spin 0 (page_of [spot "a4" "A"] (Some "p3"))))
    = restaurants exhausted_A ∧
  seenIds (step exhausted_A (Spin 0 (page_of [spot "a4" "A"] (Some "p3"))))
    = seenIds exhausted_A ∧
  winner (step exhausted_A (Spin 0 (page_of [spot "a4" "A"] (Some "p3"))))
    = None ∧
  (notSkippedTwice (skippedCuisines exhausted_A) [spot "a4" "A"] = [] →
   alerts (handleSpin exhausted_A 0 (page_of [spot "a4" "A"] (Some "p3")))
     = [msg_spin_again]).
Proof.
  apply (empty_batch_stores_token exhausted_A 0
           (page_of [spot "a4" "A"] (Some "p3")) [spot "a4" "A"]
           (Some "p3")).
  - vm_compute. discriminate.
  - reflexivity.
  - reflexivity.
  - vm_compute. reflexivity.
Defined.

(** C4, counterexample.  The pool is ["x"], already shown, and a page
    token is pending.  The fetched page holds "x" again and a next token:
    nothing is left of it once the ids of the pool are removed, yet the
    alert is "You've seen everything!" and not the "spin again" one. *)
Lemma duplicate_batch_alerts_seen_everything :
  fetches (handleSpin all_seen 0 (page_of [spot "x" "A"] (Some "p3")))
    = [spinRequest all_seen] ∧
  truthy_opt (Some "p3") = true ∧
  notInPool (restaurants all_seen)
    (notSkippedTwice (skippedCuisines all_seen) [spot "x" "A"]) = [] ∧
  alerts (handleSpin all_seen 0 (page_of [spot "x" "A"] (Some "p3")))
    = [msg_seen_everything] ∧
  alerts (handleSpin all_seen 0 (page_of [spot "x" "A"] (Some "p3")))
    ≠ [msg_spin_again].
Proof.
  assert (alerts (handleSpin all_seen 0 (page_of [spot "x" "A"] (Some "p3")))
          = [msg_seen_everything]) as H by (vm_compute; reflexivity).
  split; [vm_compute; reflexivity|]. split; [reflexivity|].
  split; [vm_compute; reflexivity|]. split; [exact H|].
  rewrite H. discriminate.
Qed.

(** One run of [handleSpin] sends at most one request. *)
Lemma handleSpin_fetches_once c rnd api :
  fetches (handleSpin c rnd api) = [] ∨
  fetches (handleSpin c rnd api) = [spinRequest c].
Proof. unfold handleSpin. repeat case_match; simpl; auto. Qed.

Lemma handleSpin_fetches_empty_pool c rnd api :
  negb (truthy (location c)) && negb (bool_decide (is_Some (coords c)))
    = false →
  truthy (vibe c) = true →
  restaurants c = [] →
  fetches (handleSpin c rnd api) = [spinRequest c].
Proof.
  intros Hguard Hvibe Hpool. unfold handleSpin.
  rewrite Hguard, Hvibe, Hpool. simpl.
  repeat case_match; simpl; auto.
Qed.

(** C5.  With the location and the vibe filled in, an empty pool and no
    page token: when the endpoint answers with no restaurants and the
    token "X", [handleSpin] alerts "spin again" and stores "X", and the
    next [handleSpin] sends exactly one request, with page token "X";
    when the endpoint answers with no restaurants and no token,
    [handleSpin] alerts that no restaurants were found. *)
Theorem empty_first_page (c : State) (rnd : nat)
    (api : RequestBody → FetchResult) :
  truthy (location c) = true ∨ is_Some (coords c) →
  truthy (vibe c) = true →
  restaurants c = [] →
  nextPageToken c = None →
  (api (spinRequest c) = Resolved (mkData [] (Some "X")) →
   alerts (handleSpin c rnd api) = [msg_spin_again] ∧
   fetches (handleSpin c rnd api) = [spinRequest c] ∧
   req_pageToken (spinRequest c) = None ∧
   nextPageToken (step c (Spin rnd api)) = Some "X" ∧
   ∀ rnd' api',
     ∃ req, fetches (handleSpin (step c (Spin rnd api)) rnd' api') = [req] ∧
            req_pageToken req = Some "X") ∧
  (api (spinRequest c) = Resolved (mkData [] None) →
   alerts (handleSpin c rnd api) = [msg_none_found] ∧
   nextPageToken (step c (Spin rnd api)) = None).
Proof.
  intros Hloc Hvibe Hpool Htok.
  assert (negb (truthy (location c))
          && negb (bool_decide (is_Some (coords c))) = false) as Hguard.
  { destruct Hloc as [->|Hc]; [done|].
    rewrite (bool_decide_eq_true_2 _ Hc). apply andb_false_r. }
  rewrite step_keepsFilters by done. simpl handle.
  split; intros Hapi.
  - assert (handleSpin c rnd api =
              [setLoading true; setWinner None; fetch (spinRequest c);
               setNextPageToken (Some "X"); alert msg_spin_again;
               setLoading false]) as ->.
    { unfold handleSpin. by rewrite Hguard, Hvibe, Hpool, Hapi. }
    simpl. repeat split; try done.
    intros rnd' api'. eexists. split.
    + by apply handleSpin_fetches_empty_pool.
    + reflexivity.
  - assert (handleSpin c rnd api =
              [setLoading true; setWinner None; fetch (spinRequest c);
               alert msg_none_found; setLoading false]) as ->.
    { unfold handleSpin. by rewrite Hguard, Hvibe, Hpool, Hapi. }
    simpl. by rewrite Htok.
Qed.

Lemma empty_first_page_witness :
  alerts (handleSpin searching 0 (page_of [] (Some "X")))
    = [msg_spin_again] ∧
  fetches (handleSpin searching 0 (page_of [] (Some "X")))
    = [spinRequest searching] ∧
  req_pageToken (spinRequest searching) = None ∧
  nextPageToken (step searching (Spin 0 (page_of [] (Some "X"))))
    = Some "X" ∧
  ∀ rnd' api',
    ∃ req,
      fetches (handleSpin (step searching (Spin 0 (page_of [] (Some "X"))))
                 rnd' api') = [req] ∧
      req_pageToken req = Some "X".
Proof.
  apply (empty_first_page searching 0 (page_of [] (Some "X"))).
  - left. reflexivity.
  - reflexivity.
  - reflexivity.
  - reflexivity.
  - reflexivity.
Defined.
End PageFacts.

(** ** Properties of the vector-search handler *)

Section VectorSearchFacts.
Import VectorSearch.
Context {Row : Type}.
Implicit Types (req : option RequestBody)
  (embed : string → Outcome (option (list EmbeddingItem)))
  (rpc : RpcArgs → Outcome (RpcReply Row)).

(** Every reply is the static list or the non-empty RPC rows, with
    status 200. *)
Lemma POST_cases req embed rpc :
  POST req embed rpc = NextResponse_json (Static EMERGENCY_LIST) ∨
  ∃ b input d q r rs,
    req = Some b ∧ vibe b = JString input ∧ truthy input = true ∧
    embed input = Returned d ∧ firstEmbedding d = Some q ∧
    rpc (rpcArgs b q) = Returned (mkRpcReply (Some (r :: rs)) None) ∧
    POST req embed rpc = NextResponse_json (Rows (r :: rs)).
Proof.
  unfold POST. destruct req as [b|]; [|by left].
  destruct (vibe b) as [| |?|?|input|] eqn:Hv; simpl;
    rewrite ?orb_true_r; try (by left).
  rewrite orb_false_r.
  destruct (truthy input) eqn:Ht; simpl; [|by left].
  destruct (embed input) as [|d] eqn:He; [by left|].
  destruct (firstEmbedding d) as [q|] eqn:Hq; [|by left].
  destruct (rpc (rpcArgs b q)) as [|[[[|r rs]|] [e|]]] eqn:Hr;
    simpl; try (by left).
  right. by exists b, input, d, q, r, rs.
Qed.

(** C8.  The reply always has status 200, and it is the static list of
    five restaurants when the body cannot be read, when [vibe] is
    missing, empty or not a string, when the embedding call throws or
    yields no embedding, when the RPC throws, reports an error, or
    returns no rows. *)
Theorem vector_search_falls_back req embed rpc :
  status (POST req embed rpc) = 200 ∧
  length EMERGENCY_LIST = 5 ∧
  (req = None → body (POST req embed rpc) = Static EMERGENCY_LIST) ∧
  (∀ b, req = Some b →
     truthy_js (vibe b) = false ∨ typeof_string (vibe b) = false →
     body (POST req embed rpc) = Static EMERGENCY_LIST) ∧
  (∀ b input, req = Some b → vibe b = JString input →
     embed input = Threw ∨
     (∃ d, embed input = Returned d ∧ firstEmbedding d = None) →
     body (POST req embed rpc) = Static EMERGENCY_LIST) ∧
  (∀ b input d q, req = Some b → vibe b = JString input →
     embed input = Returned d → firstEmbedding d = Some q →
     rpc (rpcArgs b q) = Threw ∨
     (∃ reply, rpc (rpcArgs b q) = Returned reply ∧
               (is_Some (error reply) ∨ data reply = None
                ∨ data reply = Some [])) →
     body (POST req embed rpc) = Static EMERGENCY_LIST).
Proof.
  split.
  { by destruct (POST_cases req embed rpc)
      as [->|(b & i & d & q & r & rs & _ & _ & _ & _ & _ & _ & ->)]. }
  split; [done|].
  destruct (POST_cases req embed rpc)
    as [->|(b & i & d & q & r & rs & -> & Hv & Ht & He & Hq & Hr & _)];
    [by repeat split|].
  split; [done|]. split; [|split].
  - intros b' [= <-]. rewrite Hv. simpl. rewrite Ht. by intros [|].
  - intros b' i' [= <-]. rewrite Hv. intros [= <-]. rewrite He.
    intros [|(d' & [= <-] & Hn)]; congruence.
  - intros b' i' d' q' [= <-]. rewrite Hv. intros [= <-]. rewrite He.
    intros [= <-]. rewrite Hq. intros [= <-]. rewrite Hr.
    intros [|(reply & [= <-] & [Herr|[Hd|Hd]])]; try done.
    by destruct Herr.
Qed.

(** C10.  The array sent back is never empty: it is the static list of
    five restaurants, or the rows of the RPC when there is at least
    one. *)
Theorem vector_search_never_empty req embed rpc :
  (body (POST req embed rpc) = Static EMERGENCY_LIST ∨
   ∃ r rs, body (POST req embed rpc) = Rows (r :: rs)) ∧
  payloadLength (Static (Row := Row) EMERGENCY_LIST) = 5 ∧
  (1 ≤ payloadLength (body (POST req embed rpc)))%nat.
Proof.
  destruct (POST_cases req embed rpc)
    as [->|(b & i & d & q & r & rs & _ & _ & _ & _ & _ & _ & ->)]; simpl.
  - repeat split; [by left|lia].
  - repeat split; [right; by exists r, rs|lia].
Qed.
End VectorSearchFacts.

Lemma vector_search_falls_back_witness :
  body (VectorSearch.POST (Some cozy_medium) embed_ok
          (rpc_rows (Some ["row"]) (Some "timeout")))
  = VectorSearch.Static VectorSearch.EMERGENCY_LIST.
Proof.
  apply (vector_search_falls_back (Some cozy_medium) embed_ok
           (rpc_rows (Some ["row"]) (Some "timeout")))
    with (b := cozy_medium) (input := "cozy")
         (d := Some [VectorSearch.mkEmbeddingItem (Some [1 # 2; 1 # 3])])
         (q := [1 # 2; 1 # 3]).
  - reflexivity.
  - reflexivity.
  - reflexivity.
  - reflexivity.
  - right. eexists. split; [reflexivity|]. left. simpl. by eexists.
Defined.

(** ** Properties of the places-search handler *)

Section PlacesSearchFacts.
Import PlacesSearch.

Lemma EMERGENCY_LIST_untagged r :
  r ∈ EMERGENCY_LIST → raw_price_level r = None.
Proof.
  unfold EMERGENCY_LIST. rewrite !elem_of_cons, elem_of_nil.
  intros [->|[->|[->|[->|[->|[]]]]]]; reflexivity.
Qed.

(** What the handler serves: static entries, or transformed places
    that pass the post-filter. *)
Lemma POST_served key b upstream r :
  r ∈ servedOf (body (POST key (Some b) upstream)) →
  r ∈ EMERGENCY_LIST ∨
  ∃ place, r = transform (vibe b) place ∧
           keeps (priceLevelsOf (budget b)) r = true.
Proof.
  unfold POST. destruct key as [key|]; [|by left].
  destruct (truthy key); simpl; [|by left].
  destruct (upstream _) as [|data]; [by left|].
  destruct (places data) as [[|p ps]|]; simpl.
  - destruct (truthy_opt (pageToken b)); simpl; [by intros ?%elem_of_nil|by left].
  - intros [Hk Hin]%list_elem_of_filter. right.
    change (r ∈ transform (vibe b) <$> (p :: ps)) in Hin.
    apply list_elem_of_fmap in Hin as (place & -> & _). by exists place.
  - destruct (truthy_opt (pageToken b)); simpl; [by intros ?%elem_of_nil|by left].
Qed.

Lemma keeps_tier budget place lo hi vibe :
  VectorSearch.priceRange (JString budget) = (Some lo, Some hi) →
  keeps (priceLevelsOf budget) (transform vibe place) = true →
  (lo ≤ price_level (restaurant (transform vibe place)) ≤ hi)%Z.
Proof.
  unfold VectorSearch.priceRange, priceLevelsOf, strictEq, keeps. simpl.
  destruct (String.eqb budget "low");
    [|destruct (String.eqb budget "medium");
      [|destruct (String.eqb budget "high"); [|done]]].
  all: intros [= <- <-]; simpl.
  all: destruct (priceLevel place) as [l|]; [|done].
  all: intros Hl%bool_decide_eq_true.
  all: rewrite !elem_of_cons, elem_of_nil in Hl.
  all: destruct Hl as [->|Hl]; [simpl; lia|].
  all: try (destruct Hl as [->|[]]; simpl; lia).
  all: done.
Qed.

(** C7.  Both handlers map low to tiers 0..1, medium to tier 2 and high
    to tiers 3..4; every restaurant the places-search handler serves
    that is not a static entry has a tier inside the range of the
    budget; and under the medium budget an upstream place tagged
    [PRICE_LEVEL_INEXPENSIVE] (tier 1) is not served. *)
Theorem price_tiers_and_post_filter :
  (VectorSearch.priceRange (JString "low") = (Some 0, Some 1)%Z ∧
   VectorSearch.priceRange (JString "medium") = (Some 2, Some 2)%Z ∧
   VectorSearch.priceRange (JString "high") = (Some 3, Some 4)%Z) ∧
  ((priceNumOf ∘ Some) <$> priceLevelsOf "low" = [0; 1]%Z ∧
   (priceNumOf ∘ Some) <$> priceLevelsOf "medium" = [2]%Z ∧
   (priceNumOf ∘ Some) <$> priceLevelsOf "high" = [3; 4]%Z) ∧
  (∀ key b upstream lo hi r,
     VectorSearch.priceRange (JString (budget b)) = (Some lo, Some hi) →
     r ∈ servedOf (body (POST key (Some b) upstream)) →
     r ∈ EMERGENCY_LIST ∨ (lo ≤ price_level (restaurant r) ≤ hi)%Z) ∧
  (∀ key b upstream place,
     budget b = "medium" →
     priceLevel place = Some "PRICE_LEVEL_INEXPENSIVE" →
     priceNumOf (priceLevel place) = 1%Z ∧
     keeps (priceLevelsOf (budget b)) (transform (vibe b) place) = false ∧
     transform (vibe b) place
       ∉ servedOf (body (POST key (Some b) upstream))).
Proof.
  split; [done|]. split; [done|]. split.
  - intros key b upstream lo hi r Hrange Hr.
    destruct (POST_served key b upstream r Hr) as [He|(place & -> & Hk)];
      [by left|right].
    by eapply keeps_tier.
  - intros key b upstream place Hb Hp.
    assert (keeps (priceLevelsOf (budget b)) (transform (vibe b) place)
            = false) as Hk.
    { rewrite Hb. unfold keeps. simpl. by rewrite Hp. }
    split; [by rewrite Hp|]. split; [done|].
    intros Hin.
    destruct (POST_served key b upstream _ Hin) as [He|(place' & _ & Hk')].
    + apply EMERGENCY_LIST_untagged in He. simpl in He. congruence.
    + congruence.
Qed.

Lemma price_tiers_and_post_filter_witness :
  transform (vibe first_page) cheap_place
    ∉ servedOf
        (body (POST (Some "key") (Some first_page)
                 (upstream_of (Some [cheap_place; moderate_place]) None))) ∧
  servedOf
    (body (POST (Some "key") (Some first_page)
             (upstream_of (Some [cheap_place; moderate_place]) None)))
  = [transform "cozy" moderate_place].
Proof.
  split.
  - apply (proj2 (proj2 (proj2 price_tiers_and_post_filter))
             (Some "key") first_page
             (upstream_of (Some [cheap_place; moderate_place]) None)
             cheap_place).
    + reflexivity.
    + reflexivity.
  - vm_compute. reflexivity.
Defined.

(** C9.  With the API key set and an upstream reply without places: the
    handler answers with the empty list and no next token when the
    request carried a page token, and with the static list when it did
    not. *)
Theorem empty_upstream_page (key : string) (b : RequestBody)
    (upstream : UpstreamRequest → Outcome PlacesData) (data : PlacesData) :
  truthy key = true →
  upstream (upstreamRequest key b) = Returned data →
  places data = None ∨ places data = Some [] →
  (truthy_opt (pageToken b) = true →
   POST (Some key) (Some b) upstream = NextResponse_json (Paged [] None)) ∧
  (truthy_opt (pageToken b) = false →
   POST (Some key) (Some b) upstream
   = NextResponse_json (Paged EMERGENCY_LIST None)) ∧
  Paged [] None ≠ Paged EMERGENCY_LIST None.
Proof.
  intros Hkey Hup Hempty. unfold POST. rewrite Hkey, Hup. simpl.
  repeat split.
  - intros ->. by destruct Hempty as [-> | ->].
  - intros ->. by destruct Hempty as [-> | ->].
  - discriminate.
Qed.

Lemma empty_upstream_page_witness :
  POST (Some "key") (Some next_page) (upstream_of (Some []) None)
    = NextResponse_json (Paged [] None) ∧
  POST (Some "key") (Some first_page) (upstream_of None None)
    = NextResponse_json (Paged EMERGENCY_LIST None).
Proof.
  split.
  - apply (empty_upstream_page "key" next_page (upstream_of (Some []) None)
             (mkPlacesData (Some []) None)).
    + reflexivity.
    + reflexivity.
    + right. reflexivity.
    + reflexivity.
  - apply (empty_upstream_page "key" first_page (upstream_of None None)
             (mkPlacesData None None)).
    + reflexivity.
    + reflexivity.
    + left. reflexivity.
    + reflexivity.
Defined.
End PlacesSearchFacts.

(** ** Further properties of the places-search handler *)

Section PlacesSearchMore.
Import PlacesSearch.

Lemma priceNumOf_range (o : option string) : (0 ≤ priceNumOf o ≤ 4)%Z.
Proof. unfold priceNumOf. repeat case_match; lia. Qed.

(** X1.  The handler answers with status 200 on every path.  A request
    body that cannot be read gives the static list in the paged shape,
    without a next token.  For a readable body: without an API key the
    reply is the bare static list, whatever the body and the upstream are;
    with a key, an upstream call that throws gives the static list in the
    paged shape without a next token. *)
Theorem places_search_always_200 (key : option string)
    (req : option RequestBody)
    (upstream : UpstreamRequest → Outcome PlacesData) :
  status (POST key req upstream) = 200 ∧
  (req = None →
   body (POST key req upstream) = Paged EMERGENCY_LIST None) ∧
  (∀ b, req = Some b → truthy_opt key = false →
        body (POST key req upstream) = Bare EMERGENCY_LIST) ∧
  (∀ b k, req = Some b → key = Some k → truthy k = true →
          upstream (upstreamRequest k b) = Threw →
          body (POST key req upstream) = Paged EMERGENCY_LIST None).
Proof.
  split.
  - unfold POST. by repeat case_match.
  - split; [by intros ->|]. split.
    + intros b -> Hk. unfold POST.
      destruct key as [k|]; [|done]. simpl in Hk. by rewrite Hk.
    + intros b k -> -> Hk Hup. unfold POST. by rewrite Hk, Hup.
Qed.

Lemma places_search_always_200_witness :
  body (POST (Some "") (Some first_page) (upstream_of (Some [cheap_place]) None))
    = Bare EMERGENCY_LIST ∧
  body (POST (Some "key") (Some first_page) (λ _, Threw))
    = Paged EMERGENCY_LIST None.
Proof.
  split.
  - apply (places_search_always_200 (Some "") (Some first_page)
             (upstream_of (Some [cheap_place]) None)) with (b := first_page);
      reflexivity.
  - apply (places_search_always_200 (Some "key") (Some first_page)
             (λ _, Threw)) with (b := first_page) (k := "key"); reflexivity.
Defined.

(** X2.  The next page token of a paged reply is never the empty string:
    it is absent or a non-empty string, so a client that tests its
    truthiness loses nothing. *)
Theorem reply_token_never_empty (key : option string)
    (req : option RequestBody)
    (upstream : UpstreamRequest → Outcome PlacesData)
    (l : list Served) (tok : option string) :
  body (POST key req upstream) = Paged l tok →
  tok = None ∨ truthy_opt tok = true.
Proof.
  unfold POST. repeat case_match; simpl; intros [= <- <-]; auto.
Qed.

Lemma reply_token_never_empty_witness :
  (None : option string) = None ∨ truthy_opt None = true.
Proof.
  apply (reply_token_never_empty (Some "key") (Some first_page)
           (upstream_of (Some [moderate_place]) (Some ""))
           [transform "cozy" moderate_place] None).
  vm_compute. reflexivity.
Defined.

(** X3.  What is served from an upstream page is a sublist of the
    transformed places, in upstream order: the handler drops places but
    never adds or reorders any. *)
Theorem served_sublist_of_places (key : string) (b : RequestBody)
    (upstream : UpstreamRequest → Outcome PlacesData) (data : PlacesData)
    (p : Place) (ps : list Place) :
  truthy key = true →
  upstream (upstreamRequest key b) = Returned data →
  places data = Some (p :: ps) →
  servedOf (body (POST (Some key) (Some b) upstream))
    `sublist_of` (transform (vibe b) <$> (p :: ps)) ∧
  (length (servedOf (body (POST (Some key) (Some b) upstream)))
   ≤ length (p :: ps))%nat.
Proof.
  intros Hk Hup Hp. unfold POST. rewrite Hk, Hup, Hp.
  unfold NextResponse_json. cbn [servedOf body negb].
  assert (∀ l : list Served,
            filter (λ r, keeps (priceLevelsOf (budget b)) r = true) l
            `sublist_of` l) as Hsub by (intros l; apply sublist_filter).
  split; [apply Hsub|].
  pose proof (sublist_length _ _ (Hsub (transform (vibe b) <$> (p :: ps))))
    as Hlen.
  by rewrite length_fmap in Hlen.
Qed.

Lemma served_sublist_of_places_witness :
  servedOf (body (POST (Some "key") (Some first_page)
                    (upstream_of (Some [cheap_place; moderate_place]) None)))
    `sublist_of` (transform (vibe first_page)
                    <$> [cheap_place; moderate_place]) ∧
  (length (servedOf (body (POST (Some "key") (Some first_page)
                             (upstream_of (Some [cheap_place; moderate_place])
                                None))))
   ≤ length [cheap_place; moderate_place])%nat.
Proof.
  apply (served_sublist_of_places "key" first_page
           (upstream_of (Some [cheap_place; moderate_place]) None)
           (mkPlacesData (Some [cheap_place; moderate_place]) None));
    reflexivity.
Defined.

(** X4.  A budget other than "low", "medium" and "high" switches the price
    filter off: no price levels are sent upstream and every place of the
    upstream page is served, whatever its price level. *)
Theorem unknown_budget_serves_all (key : string) (b : RequestBody)
    (upstream : UpstreamRequest → Outcome PlacesData) (data : PlacesData)
    (p : Place) (ps : list Place) :
  budget b ≠ "low" → budget b ≠ "medium" → budget b ≠ "high" →
  truthy key = true →
  upstream (upstreamRequest key b) = Returned data →
  places data = Some (p :: ps) →
  up_priceLevels (upstreamRequest key b) = None ∧
  servedOf (body (POST (Some key) (Some b) upstream))
    = transform (vibe b) <$> (p :: ps).
Proof.
  intros Hl Hm Hh Hk Hup Hp.
  assert (priceLevelsOf (budget b) = []) as Hnone.
  { unfold priceLevelsOf.
    by rewrite (proj2 (String.eqb_neq _ _) Hl),
               (proj2 (String.eqb_neq _ _) Hm),
               (proj2 (String.eqb_neq _ _) Hh). }
  split.
  - unfold upstreamRequest. rewrite Hnone. case_match; reflexivity.
  - unfold POST. rewrite Hk, Hup, Hp, Hnone.
    unfold NextResponse_json. cbn [servedOf body negb].
    generalize (transform (vibe b) <$> (p :: ps)). intros l.
    induction l as [|x l IH]; [done|].
    rewrite filter_cons, decide_True by reflexivity. by rewrite IH.
Qed.

Lemma unknown_budget_serves_all_witness :
  up_priceLevels
    (upstreamRequest "key"
       (mkRequestBody "Paris" "cozy" "high-plus" "walking" None None None))
    = None ∧
  servedOf
    (body (POST (Some "key")
             (Some (mkRequestBody "Paris" "cozy" "high-plus" "walking" None
                      None None))
             (upstream_of (Some [cheap_place; moderate_place]) None)))
    = transform "cozy" <$> [cheap_place; moderate_place].
Proof.
  apply (unknown_budget_serves_all "key"
           (mkRequestBody "Paris" "cozy" "high-plus" "walking" None None None)
           (upstream_of (Some [cheap_place; moderate_place]) None)
           (mkPlacesData (Some [cheap_place; moderate_place]) None));
    try reflexivity; simpl; discriminate.
Defined.

(** X5.  A request whose latitude or longitude is missing or 0 is
    searched by text "in" the location, without a location restriction;
    otherwise the search is restricted to a circle around the coordinates,
    of radius 11265 m when the transport is "driving" and 3218 m for any
    other transport.  The page token is passed on as it came and at most 20
    results are asked for. *)
Theorem upstream_request_shape (key : string) (b : RequestBody) :
  up_pageToken (upstreamRequest key b) = pageToken b ∧
  maxResultCount (upstreamRequest key b) = 20%Z ∧
  (truthy_num_opt (lat b) && truthy_num_opt (lng b) = false →
   locationRestriction (upstreamRequest key b) = None ∧
   textQuery (upstreamRequest key b)
   = vibe b +:+ " restaurants in " +:+ location b) ∧
  (∀ la ln, lat b = Some la → lng b = Some ln →
     ¬ (la == 0)%Q → ¬ (ln == 0)%Q →
     locationRestriction (upstreamRequest key b)
     = Some (la, ln,
             if String.eqb (transport b) "driving" then 11265%Z else 3218%Z) ∧
     textQuery (upstreamRequest key b) = vibe b +:+ " restaurants").
Proof.
  assert (∀ q, ¬ (q == 0)%Q → truthy_num q = true) as Hnz.
  { intros q Hq. unfold truthy_num.
    destruct (Qeq_bool q 0) eqn:E; [|done].
    by apply Qeq_bool_iff in E. }
  unfold upstreamRequest.
  split; [by case_match|]. split; [by case_match|]. split.
  - by intros ->.
  - intros la ln Hla Hln Ha Hn. rewrite Hla, Hln. simpl.
    by rewrite (Hnz la Ha), (Hnz ln Hn).
Qed.

Lemma upstream_request_shape_witness :
  locationRestriction
    (upstreamRequest "key"
       (mkRequestBody "Quito" "cozy" "low" "walking" (Some 0%Q)
          (Some (-78 # 1)) None)) = None ∧
  textQuery
    (upstreamRequest "key"
       (mkRequestBody "Quito" "cozy" "low" "walking" (Some 0%Q)
          (Some (-78 # 1)) None)) = "cozy restaurants in Quito".
Proof.
  apply (upstream_request_shape "key"
           (mkRequestBody "Quito" "cozy" "low" "walking" (Some 0%Q)
              (Some (-78 # 1)) None)).
  reflexivity.
Defined.

(** X6.  Every transformed place has a price tier between 0 and 4 (1 when
    the upstream level is missing or unknown), a non-empty name and a
    non-empty address, and keeps the upstream id and price level tag. *)
Theorem transform_fields (v : string) (place : Place) :
  (0 ≤ price_level (restaurant (transform v place)) ≤ 4)%Z ∧
  name (restaurant (transform v place)) ≠ "" ∧
  address (restaurant (transform v place)) ≠ "" ∧
  id (restaurant (transform v place)) = place_id place ∧
  raw_price_level (transform v place) = priceLevel place.
Proof.
  assert (∀ o d, d ≠ "" → or_else o d ≠ "") as Hne.
  { intros [[|a t]|] d Hd; simpl; congruence. }
  split; [apply priceNumOf_range|].
  repeat split; simpl; by apply Hne.
Qed.

(** X7.  A place without an upstream price level is given tier 1, which
    lies in the range of the "low" budget, and yet it is dropped under each
    of the three budgets: the post-filter looks at the upstream tag, not at
    the tier. *)
Theorem untagged_place_dropped (v budget : string) (place : Place) :
  priceLevel place = None →
  budget = "low" ∨ budget = "medium" ∨ budget = "high" →
  price_level (restaurant (transform v place)) = 1%Z ∧
  keeps (priceLevelsOf budget) (transform v place) = false.
Proof.
  intros Hp Hb. unfold keeps. simpl. rewrite Hp.
  by destruct Hb as [->|[->| ->]].
Qed.

Lemma untagged_place_dropped_witness :
  price_level
    (restaurant
       (transform "cozy"
          (mkPlace "p3" (Some "Sans Prix") None None None None None None)))
    = 1%Z ∧
  keeps (priceLevelsOf "low")
    (transform "cozy"
       (mkPlace "p3" (Some "Sans Prix") None None None None None None))
    = false.
Proof.
  apply (untagged_place_dropped "cozy" "low"
           (mkPlace "p3" (Some "Sans Prix") None None None None None None)).
  - reflexivity.
  - left. reflexivity.
Defined.

(** *** The cuisine label *)

Lemma chars_append (s t : string) :
  String.list_ascii_of_string (s +:+ t)
  = String.list_ascii_of_string s ++ String.list_ascii_of_string t.
Proof. induction s as [|a s IH]; simpl; [done|by rewrite IH]. Qed.

Lemma upper_not_underscore (a : Ascii.ascii) :
  a ≠ Ascii.ascii_of_nat 95 → upper a ≠ Ascii.ascii_of_nat 95.
Proof.
  intros Ha.
  destruct a as [[] [] [] [] [] [] [] []];
    try (vm_compute; discriminate); by destruct Ha.
Qed.

Lemma splitUnderscore_clean (s : string) :
  Forall (λ w, Ascii.ascii_of_nat 95 ∉ String.list_ascii_of_string w)
    (splitUnderscore s).
Proof.
  induction s as [|a s IH]; simpl.
  - constructor; [apply not_elem_of_nil|constructor].
  - destruct (Ascii.eqb a (Ascii.ascii_of_nat 95)) eqn:E.
    + constructor; [apply not_elem_of_nil|done].
    + apply Ascii.eqb_neq in E.
      destruct (splitUnderscore s) as [|w ws].
      * constructor; [|constructor]. simpl.
        apply not_elem_of_cons. split; [congruence|apply not_elem_of_nil].
      * apply Forall_cons in IH as [Hw Hws].
        constructor; [|done]. simpl. apply not_elem_of_cons. split; congruence.
Qed.

Lemma capitalise_clean (w : string) :
  Ascii.ascii_of_nat 95 ∉ String.list_ascii_of_string w →
  Ascii.ascii_of_nat 95 ∉ String.list_ascii_of_string (capitalise w).
Proof.
  destruct w as [|a w]; [done|]. simpl.
  rewrite !not_elem_of_cons. intros [Ha Hw]. split; [|done].
  intros E. by apply (upper_not_underscore a); [congruence|].
Qed.

Lemma concat_space_clean (l : list string) :
  Forall (λ w, Ascii.ascii_of_nat 95 ∉ String.list_ascii_of_string w) l →
  Ascii.ascii_of_nat 95 ∉ String.list_ascii_of_string (String.concat " " l).
Proof.
  induction 1 as [|w l Hw Hl IH]; simpl; [apply not_elem_of_nil|].
  destruct l as [|w' l']; [done|].
  change (w +:+ " " +:+ String.concat " " (w' :: l')) with
    (w +:+ (" " +:+ String.concat " " (w' :: l'))).
  rewrite !chars_append. rewrite !not_elem_of_app. repeat split; [done| |done].
  simpl. apply not_elem_of_cons. split; [discriminate|apply not_elem_of_nil].
Qed.

(** X8.  The cuisine label computed from a place type never contains an
    underscore, whatever the type string is. *)
Theorem formatCuisine_no_underscore (cuisine : string) :
  Ascii.ascii_of_nat 95 ∉ String.list_ascii_of_string (formatCuisine cuisine).
Proof.
  unfold formatCuisine. apply concat_space_clean.
  apply Forall_fmap.
  eapply Forall_impl; [apply splitUnderscore_clean|].
  intros w Hw. by apply capitalise_clean.
Qed.

Lemma string_length_append (s t : string) :
  String.length (s +:+ t) = (String.length s + String.length t)%nat.
Proof. induction s as [|a s IH]; simpl; [done|by rewrite IH]. Qed.

Lemma substring_whole (t : string) :
  String.substring 0 (String.length t) t = t.
Proof. induction t as [|a t IH]; simpl; [done|by rewrite IH]. Qed.

Lemma substring_after (s t : string) (n : nat) :
  String.substring (String.length s) n (s +:+ t) = String.substring 0 n t.
Proof. induction s as [|a s IH]; simpl; [done|apply IH]. Qed.

Lemma substring_before (s t : string) :
  String.substring 0 (String.length s) (s +:+ t) = s.
Proof.
  induction s as [|a s IH]; simpl; [by destruct t|by rewrite IH].
Qed.

(** X9.  Removing the type suffix is exact: from a type that ends in
    "_restaurant" exactly that one suffix is cut off and the rest comes
    back unchanged (also when the rest itself ends in "_restaurant"). *)
Theorem dropRestaurantSuffix_exact (s : string) :
  dropRestaurantSuffix (s +:+ "_restaurant") = s.
Proof.
  unfold dropRestaurantSuffix. rewrite string_length_append.
  change (String.length "_restaurant") with 11%nat.
  replace (String.length s + 11 - 11)%nat with (String.length s) by lia.
  rewrite (proj2 (Nat.leb_le _ _)) by lia.
  rewrite substring_after, substring_before. reflexivity.
Qed.
End PlacesSearchMore.

(** ** Further properties of the client page *)

Section PageMore.
Import Page.

(** X10.  Whatever the user does, at most one request is sent, and it is
    the request built from the filters and the page token of the current
    render: neither a spin nor a skip chains a second fetch. *)
Theorem at_most_one_request (s : State) (a : Action) :
  fetches (handle a s) = [] ∨ fetches (handle a s) = [spinRequest s].
Proof.
  destruct a; simpl; try (by left).
  - apply handleSpin_fetches_once.
  - unfold handleSkip. destruct (winner s) as [w|]; [|by left].
    case_match; [|by left].
    change (fetches (?e :: ?es)) with (fetches es).
    apply handleSpin_fetches_once.
Qed.

Lemma handleSpin_idle c s rnd api :
  loading s = false → spinning s = false →
  loading (commits s (handleSpin c rnd api)) = false ∧
  spinning (commits s (handleSpin c rnd api)) = false.
Proof.
  intros Hl Hs. unfold handleSpin. repeat case_match; simpl; auto.
Qed.

(** X11.  No action leaves the page busy: from a state that is neither
    loading nor spinning, every action (once its request has been answered
    and its animation has run) ends in a state that is neither loading nor
    spinning, so the buttons come back. *)
Theorem page_never_stuck (s : State) (a : Action) :
  loading s = false → spinning s = false →
  loading (step s a) = false ∧ spinning (step s a) = false.
Proof.
  intros Hl Hs. unfold step.
  assert (loading (commits s (handle a s)) = false ∧
          spinning (commits s (handle a s)) = false) as [Hl' Hs'].
  { destruct a; simpl; auto.
    - by apply handleSpin_idle.
    - unfold handleSkip. destruct (winner s) as [w|]; [|done].
      case_match; [|done].
      change (commits s (?e :: ?es)) with (commits (commit s e) es).
      by apply handleSpin_idle. }
  unfold useEffect. case_decide; [done|]. simpl. auto.
Qed.

Lemma page_never_stuck_witness :
  loading (step searching (Spin 3 (page_of three_A_one_B (Some "t")))) = false ∧
  spinning (step searching (Spin 3 (page_of three_A_one_B (Some "t")))) = false.
Proof.
  apply (page_never_stuck searching (Spin 3 (page_of three_A_one_B (Some "t"))));
    reflexivity.
Defined.

Lemma handleSpin_skipped c s rnd api :
  skippedCuisines (commits s (handleSpin c rnd api)) = skippedCuisines s.
Proof. unfold handleSpin. repeat case_match; simpl; auto. Qed.

Lemma useEffect_skipped prev s :
  skippedCuisines (useEffect prev s) = skippedCuisines s.
Proof. unfold useEffect. by case_decide. Qed.

(** X12.  The skip counters change in one way only: a skip with a winner
    on display adds exactly one to the counter of the winner's cuisine and
    leaves every other cuisine alone; every other action, filter inputs
    included, leaves all counters alone.  So no counter ever decreases. *)
Theorem skip_counters_only_count_skips (s : State) (a : Action) (k : string) :
  (skipCount (skippedCuisines s) k
   ≤ skipCount (skippedCuisines (step s a)) k)%nat ∧
  (∀ rnd api w, a = Skip rnd api → winner s = Some w →
     skipCount (skippedCuisines (step s a)) k
     = (skipCount (skippedCuisines s) k
        + (if decide (k = cuisine w) then 1 else 0))%nat) ∧
  ((∀ rnd api, a ≠ Skip rnd api) ∨ winner s = None →
   skippedCuisines (step s a) = skippedCuisines s).
Proof.
  unfold step. rewrite useEffect_skipped.
  assert (∀ w, skipCount (<[cuisine w := skipCount (skippedCuisines s) (cuisine w) + 1]>
                            (skippedCuisines s)) k
               = (skipCount (skippedCuisines s) k
                  + (if decide (k = cuisine w) then 1 else 0))%nat) as Hins.
  { intros w. unfold skipCount at 1. case_decide as Hk.
    - subst k. rewrite lookup_insert_eq. done.
    - rewrite lookup_insert_ne by done. unfold skipCount. lia. }
  assert (∀ rnd api w, winner s = Some w →
            skippedCuisines (commits s (handleSkip s rnd api))
            = <[cuisine w := skipCount (skippedCuisines s) (cuisine w) + 1]>
                (skippedCuisines s)) as Hskip.
  { intros rnd api w Hw. unfold handleSkip. rewrite Hw. case_match.
    - change (commits s (?e :: ?es)) with (commits (commit s e) es).
      by rewrite handleSpin_skipped.
    - done. }
  assert (∀ rnd api, winner s = None →
            skippedCuisines (commits s (handleSkip s rnd api))
            = skippedCuisines s) as Hnone.
  { intros rnd api Hw. unfold handleSkip. by rewrite Hw. }
  split; [|split].
  - destruct a; simpl; try done.
    + by rewrite handleSpin_skipped.
    + destruct (winner s) as [w|] eqn:Hw.
      * rewrite (Hskip rnd api w eq_refl), Hins. lia.
      * by rewrite Hnone.
  - intros rnd api w -> Hw. simpl. by rewrite (Hskip rnd api w Hw), Hins.
  - intros [Hns|Hw]; destruct a; simpl; try done.
    + apply handleSpin_skipped.
    + by destruct (Hns rnd api).
    + apply handleSpin_skipped.
    + by apply Hnone.
Qed.

Lemma skip_counters_only_count_skips_witness :
  skipCount
    (skippedCuisines
       (step (run searching [Spin 0 (page_of three_A None)])
          (Skip 0 (page_of [] None)))) "A"
  = (skipCount
       (skippedCuisines (run searching [Spin 0 (page_of three_A None)])) "A"
     + (if decide ("A" = cuisine (spot "a1" "A")) then 1 else 0))%nat.
Proof.
  apply (skip_counters_only_count_skips
           (run searching [Spin 0 (page_of three_A None)])
           (Skip 0 (page_of [] None)) "A") with (rnd := 0)
         (api := page_of [] None); reflexivity.
Defined.

Lemma notSkippedTwice_elem skipped items r :
  r ∈ notSkippedTwice skipped items ↔
  (skipCount skipped (cuisine r) < 2)%nat ∧ r ∈ items.
Proof. unfold notSkippedTwice. by rewrite list_elem_of_filter. Qed.

Lemma notInPool_elem pool items r :
  r ∈ notInPool pool items → r ∈ items.
Proof. unfold notInPool. by intros [_ H]%list_elem_of_filter. Qed.

(** What [handleSpin] shows, when it shows something new: a restaurant
    that was not seen, is marked seen, and is in the pool afterwards. *)
Lemma handleSpin_winner c s rnd api r :
  restaurants s = restaurants c →
  seenIds s = seenIds c →
  (∀ i, i ∈ seenIds c → i ∈ ids (restaurants c)) →
  winner (commits s (handleSpin c rnd api)) = Some r →
  winner s = Some r ∨
  (id r ∉ seenIds c ∧
   seenIds (commits s (handleSpin c rnd api)) = seenIds c ∪ {[id r]} ∧
   r ∈ restaurants (commits s (handleSpin c rnd api))).
Proof.
  intros Hr Hs Hinv. unfold handleSpin.
  repeat case_match; simpl; rewrite ?Hr, ?Hs; try (intros [= <-]);
    try (by left); try done; right.
  all: match goal with
       | H : _ = ?d :: ?tl |- context [randomOf ?rnd ?d ?tl] =>
           pose proof (randomOf_elem rnd d tl) as He; rewrite <- H in He
       end.
  - rewrite app_nil_r in He. apply unseenOf_elem in He as [Hn He].
    rewrite app_nil_r. done.
  - repeat split; [|apply elem_of_app; by right].
    intros Hseen. apply Hinv in Hseen.
    match goal with
    | H : notInPool _ _ = _ |- _ => rewrite <- H in He
    end.
    by apply notInPool_fresh in He.
  - by apply unseenOf_elem in He as [Hn He].
Qed.

(** X13.  No restaurant is shown twice under the same filters: when the
    seen ids are ids of the pool (as they are from an empty pool on), a
    winner that appears after a spin, a skip or "start over" has an id that
    was not seen before, is marked seen, and is in the pool. *)
Theorem never_shown_twice (s : State) (a : Action) (r : Restaurant) :
  keepsFilters a = true →
  (∀ i, i ∈ seenIds s → i ∈ ids (restaurants s)) →
  winner (step s a) = Some r →
  winner s = Some r ∨
  (id r ∉ seenIds s ∧
   seenIds (step s a) = seenIds s ∪ {[id r]} ∧
   r ∈ restaurants (step s a)).
Proof.
  intros Ha Hinv. rewrite step_keepsFilters by done.
  destruct a; try discriminate Ha; simpl.
  - by apply handleSpin_winner.
  - unfold handleSkip. destruct (winner s) as [w|] eqn:Hw;
      [|simpl; congruence].
    case_match.
    + change (commits s (?e :: ?es)) with (commits (commit s e) es).
      intros Hr. apply handleSpin_winner in Hr; [|done..].
      destruct Hr as [Hr|Hr]; [left|by right]. simpl in Hr. congruence.
    + simpl. intros [= <-]. right.
      match goal with
      | H : _ = ?d :: ?tl |- context [randomOf ?rnd ?d ?tl] =>
          pose proof (randomOf_elem rnd d tl) as He; rewrite <- H in He
      end.
      unfold availableAfterSkip in He.
      by apply list_elem_of_filter in He as [(_ & _ & Hn) He].
  - discriminate.
Qed.

Lemma never_shown_twice_witness :
  winner searching = Some (spot "a2" "A") ∨
  (id (spot "a2" "A") ∉ seenIds searching ∧
   seenIds (step searching (Spin 1 (page_of three_A None)))
   = seenIds searching ∪ {[id (spot "a2" "A")]} ∧
   spot "a2" "A"
     ∈ restaurants (step searching (Spin 1 (page_of three_A None)))).
Proof.
  apply (never_shown_twice searching (Spin 1 (page_of three_A None))
           (spot "a2" "A")).
  - reflexivity.
  - simpl. intros i Hi. by apply not_elem_of_empty in Hi.
  - vm_compute. reflexivity.
Defined.

(** X14.  A winner shown by a spin that fetched comes from the fetched
    page: it is one of the restaurants of the reply, its id was not in the
    pool, and its cuisine has been skipped fewer than two times.  When the
    page brings nothing new, nothing is shown. *)
Theorem fetched_winner_is_fresh (c : State) (rnd : nat)
    (api : RequestBody → FetchResult) (data : Data) (r : Restaurant) :
  fetches (handleSpin c rnd api) ≠ [] →
  api (spinRequest c) = Resolved data →
  winner (step c (Spin rnd api)) = Some r →
  r ∈ data_restaurants data ∧
  id r ∉ ids (restaurants c) ∧
  (skipCount (skippedCuisines c) (cuisine r) < 2)%nat.
Proof.
  intros Hf Hapi. rewrite step_keepsFilters by done. simpl handle.
  revert Hf. unfold handleSpin. rewrite Hapi.
  destruct (negb (truthy (location c)) && _); [done|].
  destruct (negb (truthy (vibe c))); [done|].
  destruct (unseenOf (seenIds c) (restaurants c)) eqn:Hunseen; [|done].
  destruct (_ || _); [|done]. intros _.
  destruct (notSkippedTwice _ _) as [|n ns] eqn:Hnew.
  { by destruct (truthy_opt _). }
  destruct (notInPool _ _) as [|u us] eqn:Huniq.
  - simpl. rewrite app_nil_r, Hunseen. by destruct (negb _).
  - simpl. intros [= <-].
    pose proof (randomOf_elem rnd u us) as He. rewrite <- Huniq in He.
    split; [|split].
    + apply notInPool_elem in He. rewrite <- Hnew in He.
      by apply notSkippedTwice_elem in He as [_ He].
    + by apply notInPool_fresh in He.
    + apply notInPool_elem in He. rewrite <- Hnew in He.
      by apply notSkippedTwice_elem in He as [He _].
Qed.

Lemma fetched_winner_is_fresh_witness :
  spot "a2" "A" ∈ three_A ∧
  id (spot "a2" "A") ∉ ids (restaurants searching) ∧
  (skipCount (skippedCuisines searching) (cuisine (spot "a2" "A")) < 2)%nat.
Proof.
  apply (fetched_winner_is_fresh searching 1 (page_of three_A None)
           (mkData three_A None) (spot "a2" "A")).
  - vm_compute. discriminate.
  - reflexivity.
  - vm_compute. reflexivity.
Defined.

(** X15.  When a skip finds a candidate in the pool it sends no request
    and shows a restaurant that differs from the skipped winner, was not
    seen, and whose cuisine counter, after the increment of this skip, is
    below 2; in particular never the cuisine just skipped for the second
    time. *)
Theorem skip_draws_eligible (s : State) (rnd : nat)
    (api : RequestBody → FetchResult) (w d : Restaurant)
    (tl : list Restaurant) :
  winner s = Some w →
  availableAfterSkip
    (<[cuisine w := skipCount (skippedCuisines s) (cuisine w) + 1]>
       (skippedCuisines s)) w (seenIds s) (restaurants s) = d :: tl →
  fetches (handleSkip s rnd api) = [] ∧
  ∃ r, winner (step s (Skip rnd api)) = Some r ∧
       r ∈ restaurants s ∧
       id r ≠ id w ∧
       id r ∉ seenIds s ∧
       (skipCount (skippedCuisines (step s (Skip rnd api))) (cuisine r) < 2)%nat.
Proof.
  intros Hw Hav. rewrite step_keepsFilters by done. simpl handle.
  unfold handleSkip. rewrite Hw, Hav. split; [done|].
  exists (randomOf rnd d tl). simpl.
  pose proof (randomOf_elem rnd d tl) as He. rewrite <- Hav in He.
  unfold availableAfterSkip in He.
  apply list_elem_of_filter in He as [(Hc & Hi & Hn) He].
  by repeat split.
Qed.

Lemma skip_draws_eligible_witness :
  fetches
    (handleSkip (run searching [Spin 0 (page_of three_A_one_B None);
                                Skip 0 (page_of [] None)]) 0
       (page_of [] None)) = [] ∧
  ∃ r, winner (run searching skip_twice_then_back) = None ∧
       winner
         (step (run searching [Spin 0 (page_of three_A_one_B None);
                               Skip 0 (page_of [] None)])
            (Skip 0 (page_of [] None))) = Some r ∧
       cuisine r = "B".
Proof.
  destruct (skip_draws_eligible
              (run searching [Spin 0 (page_of three_A_one_B None);
                              Skip 0 (page_of [] None)])
              0 (page_of [] None) (spot "a2" "A") (spot "b1" "B") [])
    as [Hf _].
  - vm_compute. reflexivity.
  - vm_compute. reflexivity.
  - split; [exact Hf|]. exists (spot "b1" "B").
    repeat split; vm_compute; reflexivity.
Defined.

Lemma rejected_fetch (c : State) (rnd : nat)
    (api : RequestBody → FetchResult) :
  fetches (handleSpin c rnd api) ≠ [] →
  api (spinRequest c) = Rejected →
  alerts (handleSpin c rnd api) = [msg_error] ∧
  restaurants (step c (Spin rnd api)) = restaurants c ∧
  seenIds (step c (Spin rnd api)) = seenIds c ∧
  nextPageToken (step c (Spin rnd api)) = nextPageToken c ∧
  skippedCuisines (step c (Spin rnd api)) = skippedCuisines c ∧
  winner (step c (Spin rnd api)) = None ∧
  loading (step c (Spin rnd api)) = false.
Proof.
  intros Hf Hapi. rewrite step_keepsFilters by done. simpl handle.
  revert Hf. unfold handleSpin. rewrite Hapi.
  destruct (negb (truthy (location c)) && _); [done|].
  destruct (negb (truthy (vibe c))); [done|].
  destruct (unseenOf (seenIds c) (restaurants c)) eqn:Hunseen; [|done].
  by destruct (_ || _).
Qed.

(** X16.  When the request fails (the fetch or the parsing of the reply
    throws, or the reply has no [restaurants] list), the spin alerts
    "Something went wrong. Try again!" and nothing else, and leaves the
    pool, the seen ids, the page token and the skip counters as they were;
    no winner is shown and the page stops loading. *)
Theorem failed_fetch_changes_nothing (c : State) (rnd : nat)
    (api : RequestBody → FetchResult) :
  fetches (handleSpin c rnd api) ≠ [] →
  api (spinRequest c) = Rejected →
  alerts (handleSpin c rnd api) = [msg_error] ∧
  restaurants (step c (Spin rnd api)) = restaurants c ∧
  seenIds (step c (Spin rnd api)) = seenIds c ∧
  nextPageToken (step c (Spin rnd api)) = nextPageToken c ∧
  skippedCuisines (step c (Spin rnd api)) = skippedCuisines c ∧
  winner (step c (Spin rnd api)) = None ∧
  loading (step c (Spin rnd api)) = false.
Proof. apply rejected_fetch. Qed.

Lemma failed_fetch_changes_nothing_witness :
  alerts (handleSpin all_seen 0 (λ _, Rejected)) = [msg_error] ∧
  restaurants (step all_seen (Spin 0 (λ _, Rejected))) = restaurants all_seen ∧
  seenIds (step all_seen (Spin 0 (λ _, Rejected))) = seenIds all_seen ∧
  nextPageToken (step all_seen (Spin 0 (λ _, Rejected)))
    = nextPageToken all_seen ∧
  skippedCuisines (step all_seen (Spin 0 (λ _, Rejected)))
    = skippedCuisines all_seen ∧
  winner (step all_seen (Spin 0 (λ _, Rejected))) = None ∧
  loading (step all_seen (Spin 0 (λ _, Rejected))) = false.
Proof.
  apply (failed_fetch_changes_nothing all_seen 0 (λ _, Rejected)).
  - vm_compute. discriminate.
  - reflexivity.
Defined.

(** X17.  The alert "Please enter a location first!" can only come from a
    run of [handleSpin] in a state where the SPIN button is disabled: with
    the button enabled the location is filled in and the first guard
    passes.  With coordinates but an empty location text the button stays
    disabled. *)
Theorem location_alert_needs_disabled_button (s : State) (rnd : nat)
    (api : RequestBody → FetchResult) :
  (msg_location ∈ alerts (handleSpin s rnd api) → spinDisabled s = true) ∧
  (location s = "" → spinDisabled s = true).
Proof.
  split.
  - unfold spinDisabled, handleSpin.
    destruct (truthy (location s)); simpl; [|by rewrite orb_true_r].
    repeat case_match; simpl; rewrite ?elem_of_cons, ?elem_of_nil;
      intros Hin; exfalso;
      repeat destruct Hin as [Hin|Hin]; try discriminate Hin; done.
  - intros Hl. unfold spinDisabled. rewrite Hl. apply orb_true_r.
Qed.

Lemma location_alert_needs_disabled_button_witness :
  spinDisabled initial = true.
Proof.
  apply (proj1 (location_alert_needs_disabled_button initial 0
                  (page_of [] None))).
  apply (bool_decide_unpack _). vm_compute. reflexivity.
Defined.
End PageMore.

(** ** Properties of the "use my location" button *)

Section GeolocationFacts.
Import Page Geolocation.

Lemma or_else_truthy (o : option string) (d : string) :
  truthy d = true → truthy (PlacesSearch.or_else o d) = true.
Proof. intros Hd. destruct o as [[|a t]|]; simpl; done. Qed.

Lemma cityOf_truthy (a : Address) : truthy (cityOf a) = true.
Proof. unfold cityOf. by repeat apply or_else_truthy. Qed.

(** X18.  After a successful geolocation the location text is the first
    non-empty of city, town, village and suburb, or "Unknown Location";
    it is never empty, the coordinates are those of the position, and,
    unless an animation is running, the SPIN button is enabled. *)
Theorem located_enables_spin (s : State) (la ln : Q) (a : Address) :
  location (step s (Locates la ln (Returned a))) = cityOf a ∧
  truthy (cityOf a) = true ∧
  coords (step s (Locates la ln (Returned a))) = Some (la, ln) ∧
  (∀ c, city a = Some c → truthy c = true → cityOf a = c) ∧
  (city a = None → town a = None → village a = None → suburb a = None →
   cityOf a = "Unknown Location") ∧
  (spinning s = false →
   spinDisabled (step s (Locates la ln (Returned a))) = false).
Proof.
  assert (location (step s (Locates la ln (Returned a))) = cityOf a ∧
          coords (step s (Locates la ln (Returned a))) = Some (la, ln) ∧
          loading (step s (Locates la ln (Returned a))) = false ∧
          spinning (step s (Locates la ln (Returned a))) = spinning s)
    as (Hl & Hc & Hld & Hsp).
  { unfold step, useEffect. simpl. by case_decide. }
  split; [done|]. split; [apply cityOf_truthy|]. split; [done|].
  split; [|split].
  - intros c Hc' Ht. unfold cityOf. rewrite Hc'. simpl. by rewrite Ht.
  - intros H1 H2 H3 H4. unfold cityOf. by rewrite H1, H2, H3, H4.
  - intros Hs. unfold spinDisabled. rewrite Hl, Hld, Hsp, Hs.
    by rewrite cityOf_truthy.
Qed.

Lemma located_enables_spin_witness :
  cityOf (mkAddress (Some "") None (Some "Giverny") (Some "Nord")) = "Giverny" ∧
  spinDisabled
    (step initial
       (Locates (49 # 1) (3 # 2)
          (Returned (mkAddress None None None None)))) = false.
Proof.
  split.
  - reflexivity.
  - apply (located_enables_spin initial (49 # 1) (3 # 2)
             (mkAddress None None None None)).
    reflexivity.
Defined.

(** X19.  A geolocation whose city differs from the current location text
    starts a new search: pool, seen ids, page token and winner are emptied.
    The skip counters stay. *)
Theorem located_elsewhere_resets (s : State) (la ln : Q) (a : Address) :
  cityOf a ≠ location s →
  restaurants (step s (Locates la ln (Returned a))) = [] ∧
  seenIds (step s (Locates la ln (Returned a))) = ∅ ∧
  nextPageToken (step s (Locates la ln (Returned a))) = None ∧
  winner (step s (Locates la ln (Returned a))) = None ∧
  skippedCuisines (step s (Locates la ln (Returned a))) = skippedCuisines s.
Proof.
  intros Hc. unfold step, useEffect. simpl.
  rewrite decide_False; [done|].
  unfold filterDeps. simpl. congruence.
Qed.

Lemma located_elsewhere_resets_witness :
  restaurants
    (step all_seen
       (Locates (49 # 1) (3 # 2)
          (Returned (mkAddress (Some "Lyon") None None None)))) = [] ∧
  seenIds
    (step all_seen
       (Locates (49 # 1) (3 # 2)
          (Returned (mkAddress (Some "Lyon") None None None)))) = ∅ ∧
  nextPageToken
    (step all_seen
       (Locates (49 # 1) (3 # 2)
          (Returned (mkAddress (Some "Lyon") None None None)))) = None ∧
  winner
    (step all_seen
       (Locates (49 # 1) (3 # 2)
          (Returned (mkAddress (Some "Lyon") None None None)))) = None ∧
  skippedCuisines
    (step all_seen
       (Locates (49 # 1) (3 # 2)
          (Returned (mkAddress (Some "Lyon") None None None))))
  = skippedCuisines all_seen.
Proof.
  apply (located_elsewhere_resets all_seen (49 # 1) (3 # 2)
           (mkAddress (Some "Lyon") None None None)).
  vm_compute. discriminate.
Defined.

(** X20.  New coordinates alone do not start a new search.  When the
    reverse geocoding fails, or names the location already typed, the
    coordinates are replaced but pool, seen ids and page token stay; with a
    vibe typed and a restaurant of the pool not yet shown, the next spin
    then sends no request and draws from the pool fetched for the previous
    position. *)
Theorem moved_without_new_city_keeps_pool (s : State) (la ln : Q)
    (g : Outcome Address) :
  g = Threw ∨ (∃ a, g = Returned a ∧ cityOf a = location s) →
  coords (step s (Locates la ln g)) = Some (la, ln) ∧
  restaurants (step s (Locates la ln g)) = restaurants s ∧
  seenIds (step s (Locates la ln g)) = seenIds s ∧
  nextPageToken (step s (Locates la ln g)) = nextPageToken s ∧
  (truthy (vibe s) = true →
   unseenOf (seenIds s) (restaurants s) ≠ [] →
   ∀ rnd api,
     fetches (handleSpin (step s (Locates la ln g)) rnd api) = [] ∧
     ∃ r, winner (Page.step (step s (Locates la ln g)) (Spin rnd api)) = Some r ∧
          r ∈ restaurants s).
Proof.
  intros Hg.
  assert (step s (Locates la ln g)
          = mkState (location s) (Some (la, ln)) (vibe s) (budget s)
              (transport s) false (spinning s) (restaurants s) (winner s)
              (skippedCuisines s) (nextPageToken s) (seenIds s)) as ->.
  { unfold step, useEffect.
    destruct Hg as [->|(a & -> & Ha)]; simpl.
    - by rewrite decide_True.
    - rewrite decide_True; [by rewrite Ha|].
      unfold filterDeps. simpl. by rewrite Ha. }
  simpl. do 4 (split; [done|]). intros Hvibe Hunseen rnd api. split.
  - unfold handleSpin. simpl. rewrite Hvibe, andb_false_r. simpl.
    destruct (unseenOf (seenIds s) (restaurants s)); done.
  - rewrite step_keepsFilters by done. simpl handle.
    unfold handleSpin. simpl. rewrite Hvibe, andb_false_r. simpl.
    destruct (unseenOf (seenIds s) (restaurants s)) as [|d tl] eqn:Hu; [done|].
    exists (randomOf rnd d tl). simpl. split; [done|].
    pose proof (randomOf_elem rnd d tl) as He. rewrite <- Hu in He.
    by apply unseenOf_elem in He as [_ He].
Qed.

Lemma moved_without_new_city_keeps_pool_witness :
  coords
    (step (run searching [Spin 0 (page_of three_A None); StartOver])
       (Locates (35 # 1) (139 # 1) Threw)) = Some (35 # 1, 139 # 1) ∧
  restaurants
    (step (run searching [Spin 0 (page_of three_A None); StartOver])
       (Locates (35 # 1) (139 # 1) Threw))
  = restaurants (run searching [Spin 0 (page_of three_A None); StartOver]).
Proof.
  destruct (moved_without_new_city_keeps_pool
              (run searching [Spin 0 (page_of three_A None); StartOver])
              (35 # 1) (139 # 1) Threw) as (H1 & H2 & _).
  - left. reflexivity.
  - split; [exact H1|exact H2].
Defined.
End GeolocationFacts.

(** ** The page served by the places-search handler *)

Section EndpointFacts.
Import Page.

Lemma filter_all {A} (P : A → Prop) `{!∀ x, Decision (P x)} (l : list A) :
  (∀ x, x ∈ l → P x) → filter P l = l.
Proof.
  induction l as [|x l IH]; intros Hall; [done|].
  rewrite filter_cons, decide_True by (apply Hall; left).
  f_equal. apply IH. intros y Hy. apply Hall. by right.
Qed.

(** X21.  Without an API key on the server the static list never reaches
    the user: the handler answers with a bare array, the page cannot read
    [restaurants] from it, and every spin that fetches ends in the alert
    "Something went wrong. Try again!" with the pool unchanged and no
    winner. *)
Theorem missing_key_shows_error (key : option string)
    (upstream : PlacesSearch.UpstreamRequest → Outcome PlacesSearch.PlacesData)
    (c : State) (rnd : nat) :
  truthy_opt key = false →
  fetches (handleSpin c rnd (endpoint key upstream)) ≠ [] →
  alerts (handleSpin c rnd (endpoint key upstream)) = [msg_error] ∧
  restaurants (step c (Spin rnd (endpoint key upstream))) = restaurants c ∧
  winner (step c (Spin rnd (endpoint key upstream))) = None.
Proof.
  intros Hk Hf.
  assert (endpoint key upstream (spinRequest c) = Rejected) as Hrej.
  { unfold endpoint, parseReply, PlacesSearch.POST.
    destruct key as [k|]; [|done]. simpl in Hk. by rewrite Hk. }
  destruct (rejected_fetch c rnd (endpoint key upstream) Hf Hrej)
    as (Ha & Hr & _ & _ & _ & Hw & _).
  done.
Qed.

Lemma missing_key_shows_error_witness :
  alerts (handleSpin searching 0 (endpoint None (upstream_of None None)))
    = [msg_error] ∧
  restaurants (step searching (Spin 0 (endpoint None (upstream_of None None))))
    = restaurants searching ∧
  winner (step searching (Spin 0 (endpoint None (upstream_of None None))))
    = None.
Proof.
  apply (missing_key_shows_error None (upstream_of None None) searching 0).
  - reflexivity.
  - vm_compute. discriminate.
Defined.

(** X22.  With an API key, when the upstream finds no place for the first
    page of a search, the page gets the five static entries: with an empty
    pool, no page token and no cuisine skipped twice, the spin puts exactly
    these five into the pool, shows one of them, whatever the budget is,
    and stores no page token. *)
Theorem empty_search_shows_static_entry (key : string)
    (upstream : PlacesSearch.UpstreamRequest → Outcome PlacesSearch.PlacesData)
    (data : PlacesSearch.PlacesData) (c : State) (rnd : nat) :
  truthy key = true →
  truthy (location c) = true ∨ is_Some (coords c) →
  truthy (vibe c) = true →
  restaurants c = [] →
  truthy_opt (nextPageToken c) = false →
  (∀ k, skipCount (skippedCuisines c) k < 2)%nat →
  upstream (PlacesSearch.upstreamRequest key (toHandlerBody (spinRequest c)))
    = Returned data →
  PlacesSearch.places data = None ∨ PlacesSearch.places data = Some [] →
  restaurants (step c (Spin rnd (endpoint (Some key) upstream)))
    = PlacesSearch.restaurant <$> PlacesSearch.EMERGENCY_LIST ∧
  nextPageToken (step c (Spin rnd (endpoint (Some key) upstream))) = None ∧
  ∃ e, e ∈ PlacesSearch.EMERGENCY_LIST ∧
       winner (step c (Spin rnd (endpoint (Some key) upstream)))
       = Some (PlacesSearch.restaurant e).
Proof.
  intros Hk Hloc Hvibe Hpool Htok Hskip Hup Hempty.
  assert (endpoint (Some key) upstream (spinRequest c)
          = Resolved
              (mkData (PlacesSearch.restaurant <$> PlacesSearch.EMERGENCY_LIST)
                 None)) as Hres.
  { unfold endpoint, parseReply, PlacesSearch.POST. rewrite Hk, Hup. simpl.
    change (PlacesSearch.pageToken (toHandlerBody (spinRequest c)))
      with (nextPageToken c).
    rewrite Htok. by destruct Hempty as [-> | ->]. }
  assert (negb (truthy (location c))
          && negb (bool_decide (is_Some (coords c))) = false) as Hguard.
  { destruct Hloc as [->|Hc]; [done|].
    rewrite (bool_decide_eq_true_2 _ Hc). apply andb_false_r. }
  rewrite step_keepsFilters by done. simpl handle.
  remember (PlacesSearch.restaurant <$> PlacesSearch.EMERGENCY_LIST) as E
    eqn:HE.
  unfold handleSpin. rewrite Hguard, Hvibe, Hpool, Hres.
  cbn [unseenOf filter list_filter data_restaurants data_nextPageToken
       length bool_decide decide_rel orb negb app truthy_opt].
  unfold notSkippedTwice, notInPool.
  rewrite (filter_all _ E) by (intros x _; apply Hskip).
  rewrite (filter_all _ E) by (intros x _ Hex; by apply Exists_nil in Hex).
  destruct E as [|d tl]; [discriminate HE|].
  simpl. repeat split.
  pose proof (randomOf_elem rnd d tl) as He. rewrite HE in He.
  apply list_elem_of_fmap in He as (e & He & Hin).
  exists e. split; [done|]. by rewrite <- He.
Qed.

Lemma empty_search_shows_static_entry_witness :
  restaurants
    (step searching (Spin 7 (endpoint (Some "key") (upstream_of None None))))
  = PlacesSearch.restaurant <$> PlacesSearch.EMERGENCY_LIST ∧
  nextPageToken
    (step searching (Spin 7 (endpoint (Some "key") (upstream_of None None))))
  = None ∧
  ∃ e, e ∈ PlacesSearch.EMERGENCY_LIST ∧
       winner
         (step searching
            (Spin 7 (endpoint (Some "key") (upstream_of None None))))
       = Some (PlacesSearch.restaurant e).
Proof.
  apply (empty_search_shows_static_entry "key" (upstream_of None None)
           (PlacesSearch.mkPlacesData None None) searching 7).
  - reflexivity.
  - left. reflexivity.
  - reflexivity.
  - reflexivity.
  - reflexivity.
  - intros k. unfold skipCount. simpl. rewrite lookup_empty. simpl. lia.
  - reflexivity.
  - left. reflexivity.
Defined.

(** X23.  The budget reaches the pool: with the handler as endpoint, every
    restaurant a spin or a skip adds to the pool is a static entry or has
    a price tier inside the range of the budget of the page (0..1 for
    "low", 2 for "medium", 3..4 for "high"). *)
Theorem pool_respects_budget (key : option string)
    (upstream : PlacesSearch.UpstreamRequest → Outcome PlacesSearch.PlacesData)
    (s : State) (a : Action) (rnd : nat) (lo hi : Z) (r : Restaurant) :
  a = Spin rnd (endpoint key upstream) ∨ a = Skip rnd (endpoint key upstream) →
  VectorSearch.priceRange (JString (budget s)) = (Some lo, Some hi) →
  r ∈ restaurants (step s a) →
  r ∈ restaurants s ∨
  r ∈ PlacesSearch.restaurant <$> PlacesSearch.EMERGENCY_LIST ∨
  (lo ≤ price_level r ≤ hi)%Z.
Proof.
  intros Ha Hrange Hin.
  destruct (step_pool s a) as [Hp|[Hp|(rnd' & api & d & Hk & Hd & Hp)]];
    rewrite Hp in Hin.
  - by apply elem_of_nil in Hin.
  - by left.
  - apply elem_of_app in Hin as [Hin|Hin]; [by left|right].
    apply notInPool_elem, notSkippedTwice_elem in Hin as [_ Hin].
    assert (api = endpoint key upstream) as ->.
    { destruct Ha as [-> | ->]; destruct Hk as [Hk|Hk]; congruence. }
    unfold endpoint, parseReply in Hd.
    destruct (body _) as [l|l tok] eqn:Hb; [done|].
    injection Hd as <-. simpl in Hin.
    apply list_elem_of_fmap in Hin as (e & -> & He).
    assert (e ∈ PlacesSearch.servedOf
                  (body (PlacesSearch.POST key
                           (Some (toHandlerBody (spinRequest s))) upstream)))
      as Hserved by (by rewrite Hb).
    apply POST_served in Hserved as [Hs|(place & -> & Hkeep)].
    + left. by apply list_elem_of_fmap_2.
    + right. by eapply keeps_tier.
Qed.

Lemma pool_respects_budget_witness :
  PlacesSearch.restaurant (PlacesSearch.transform "cozy" moderate_place)
    ∈ restaurants searching ∨
  PlacesSearch.restaurant (PlacesSearch.transform "cozy" moderate_place)
    ∈ PlacesSearch.restaurant <$> PlacesSearch.EMERGENCY_LIST ∨
  (2 ≤ price_level
         (PlacesSearch.restaurant
            (PlacesSearch.transform "cozy" moderate_place)) ≤ 2)%Z.
Proof.
  apply (pool_respects_budget (Some "key")
           (upstream_of (Some [cheap_place; moderate_place]) None)
           searching
           (Spin 0 (endpoint (Some "key")
                      (upstream_of (Some [cheap_place; moderate_place]) None)))
           0 2 2).
  - left. reflexivity.
  - reflexivity.
  - replace (restaurants _)
      with [PlacesSearch.restaurant
              (PlacesSearch.transform "cozy" moderate_place)]
      by (vm_compute; reflexivity).
    constructor.
Defined.
End EndpointFacts.

(** ** Further properties of the vector-search handler and its pages *)

Section VectorSearchMore.
Import VectorSearch.
Context {Row : Type}.

(** X24.  The price bounds passed to the RPC are either both set, with
    0 <= min <= max <= 4, or both null; they are null for every preference
    that is not exactly "low", "medium" or "high" (missing, not a string,
    "high-plus", ...), and the search is then not restricted by price. *)
Theorem priceRange_bounds (price_preference : JsValue) :
  (∀ lo hi, priceRange price_preference = (Some lo, Some hi) →
            (0 ≤ lo ∧ lo ≤ hi ∧ hi ≤ 4)%Z) ∧
  (fst (priceRange price_preference) = None ↔
   snd (priceRange price_preference) = None) ∧
  (price_preference ≠ JString "low" → price_preference ≠ JString "medium" →
   price_preference ≠ JString "high" →
   priceRange price_preference = (None, None)).
Proof.
  unfold priceRange.
  destruct (strictEq price_preference "low") eqn:El;
    [|destruct (strictEq price_preference "medium") eqn:Em;
      [|destruct (strictEq price_preference "high") eqn:Eh]].
  1-3: split; [intros lo hi [= <- <-]; lia|split; [done|]].
  - intros Hl _ _. destruct price_preference; try done.
    apply String.eqb_eq in El. congruence.
  - intros _ Hm _. destruct price_preference; try done.
    apply String.eqb_eq in Em. congruence.
  - intros _ _ Hh. destruct price_preference; try done.
    apply String.eqb_eq in Eh. congruence.
  - split; [done|]. split; done.
Qed.

Lemma priceRange_bounds_witness :
  priceRange (JString "high-plus") = (None, None).
Proof.
  apply (priceRange_bounds (JString "high-plus")); discriminate.
Defined.

(** X25.  Rows are served only when everything worked: if the reply
    carries RPC rows, then the body was readable, [vibe] was a non-empty
    string, its embedding was obtained, and the rows are exactly the
    non-empty [data] the RPC returned, without an error, for that embedding
    with match count 5, threshold 0.5 and the price bounds of the
    preference. *)
Theorem rows_come_from_rpc (req : option RequestBody)
    (embed : string → Outcome (option (list EmbeddingItem)))
    (rpc : RpcArgs → Outcome (RpcReply Row)) (rows : list Row) :
  body (POST req embed rpc) = Rows rows →
  ∃ b input d q,
    req = Some b ∧ vibe b = JString input ∧ truthy input = true ∧
    embed input = Returned d ∧ firstEmbedding d = Some q ∧
    rpc (mkRpcArgs q (1 # 2) 5 (fst (priceRange (price_preference b)))
           (snd (priceRange (price_preference b))))
    = Returned (mkRpcReply (Some rows) None) ∧
    rows ≠ [].
Proof.
  intros Hb.
  destruct (POST_cases req embed rpc)
    as [H|(b & i & d & q & r & rs & Hreq & Hv & Ht & He & Hq & Hr & H)];
    rewrite H in Hb; [discriminate Hb|].
  injection Hb as <-. by exists b, i, d, q.
Qed.
End VectorSearchMore.

Lemma rows_come_from_rpc_witness :
  ∃ b input d q,
    Some cozy_medium = Some b ∧ VectorSearch.vibe b = JString input ∧
    truthy input = true ∧
    embed_ok input = Returned d ∧ VectorSearch.firstEmbedding d = Some q ∧
    rpc_rows (Some ["row"]) None
      (VectorSearch.mkRpcArgs q (1 # 2) 5
         (fst (VectorSearch.priceRange (VectorSearch.price_preference b)))
         (snd (VectorSearch.priceRange (VectorSearch.price_preference b))))
    = Returned (VectorSearch.mkRpcReply (Some ["row"]) None) ∧
    ["row"] ≠ [].
Proof.
  apply (rows_come_from_rpc (Some cozy_medium) embed_ok
           (rpc_rows (Some ["row"]) None) ["row"]).
  reflexivity.
Defined.

Section SearchPageFacts.
Import SearchPage.
Context {Item Row : Type}.
Variable trim : string → string.

(** X26.  A search with a blank vibe does nothing: no request is sent and
    the state stays as it is.  Otherwise exactly one request is sent, with
    the trimmed vibe and the price preference, the page stops loading, and
    it ends with results or with an error message, never both and never
    neither. *)
Theorem search_ends_with_results_or_error (s : State Item)
    (api : Request → Outcome (Reply Item)) :
  (truthy (trim (vibe s)) = false → handleSearch trim s api = mkRun [] s) ∧
  (truthy (trim (vibe s)) = true →
   sent (handleSearch trim s api)
   = [mkRequest (trim (vibe s)) (pricePreference s)] ∧
   loading (after (handleSearch trim s api)) = false ∧
   (error (after (handleSearch trim s api)) = None ↔
    restaurants (after (handleSearch trim s api)) ≠ [])).
Proof.
  unfold handleSearch. split; intros ->; simpl; [done|].
  split; [done|].
  destruct (api _) as [|data]; simpl; [done|].
  destruct (listOf data); simpl; done.
Qed.

Lemma vectorEndpoint_nonempty
    (embed : string → Outcome (option (list VectorSearch.EmbeddingItem)))
    (rpc : VectorSearch.RpcArgs → Outcome (VectorSearch.RpcReply Row))
    (r : Request) :
  ∃ x l, vectorEndpoint embed rpc r = Returned (ArrayReply (x :: l)).
Proof.
  unfold vectorEndpoint.
  match goal with
  | |- context [VectorSearch.POST ?q embed rpc] =>
      destruct (POST_cases q embed rpc)
        as [H|(? & ? & ? & ? & ? & ? & _ & _ & _ & _ & _ & _ & H)];
      rewrite H
  end; simpl; by eexists _, _.
Qed.

(** X27.  Behind the vector-search handler a search never comes back
    empty: for a non-blank vibe the page ends without error message and
    with at least one restaurant, whatever the embedding service and the
    RPC do. *)
Theorem vector_search_page_never_empty (s : State (Restaurant + Row))
    (embed : string → Outcome (option (list VectorSearch.EmbeddingItem)))
    (rpc : VectorSearch.RpcArgs → Outcome (VectorSearch.RpcReply Row)) :
  truthy (trim (vibe s)) = true →
  error (after (handleSearch trim s (vectorEndpoint embed rpc))) = None ∧
  restaurants (after (handleSearch trim s (vectorEndpoint embed rpc))) ≠ [] ∧
  error (after (handleSearch_app trim s (vectorEndpoint embed rpc))) = None ∧
  restaurants (after (handleSearch_app trim s (vectorEndpoint embed rpc))) ≠ [].
Proof.
  intros Ht. unfold handleSearch, handleSearch_app.
  rewrite Ht. cbn [negb sent after].
  destruct (vectorEndpoint_nonempty embed rpc
              (mkRequest (trim (vibe s)) (pricePreference s)))
    as (x & l & ->).
  destruct (vectorEndpoint_nonempty embed rpc
              (mkRequest (trim (vibe s))
                 (normalizedPricePreference (pricePreference s))))
    as (x' & l' & ->).
  simpl. done.
Qed.

(** X28.  Each of the four price buttons of the page sends a preference
    the handler knows: "$$$$" is sent as "high", so the RPC always gets
    both price bounds, 3..4 for "$$$" and "$$$$" alike. *)
Theorem every_price_button_sets_bounds (s : State Item)
    (api : Request → Outcome (Reply Item)) (r : Request) :
  pricePreference s ∈ (fst <$> priceOptions) →
  r ∈ sent (handleSearch_app trim s api) →
  req_price_preference r ∈ ["low"; "medium"; "high"] ∧
  (∃ lo hi,
     VectorSearch.priceRange (JString (req_price_preference r))
     = (Some lo, Some hi)) ∧
  (pricePreference s = "high-plus" →
   VectorSearch.priceRange (JString (req_price_preference r))
   = (Some 3, Some 4)%Z).
Proof.
  intros Hp Hr. unfold handleSearch_app in Hr.
  destruct (negb _); simpl in Hr; [by apply elem_of_nil in Hr|].
  apply list_elem_of_singleton in Hr as ->. simpl.
  simpl in Hp. rewrite !elem_of_cons, elem_of_nil in Hp.
  destruct Hp as [->|[->|[->|[->|[]]]]]; simpl;
    rewrite !elem_of_cons; (split; [tauto|split; [by eexists _, _|done]]).
Qed.
End SearchPageFacts.

Lemma search_ends_with_results_or_error_witness :
  SearchPage.sent
    (SearchPage.handleSearch (λ v, v)
       (SearchPage.mkState "cozy" "medium" false [] None)
       (λ _, Returned (SearchPage.OtherReply (None : option (list nat)))))
  = [SearchPage.mkRequest "cozy" "medium"] ∧
  SearchPage.loading
    (SearchPage.after
       (SearchPage.handleSearch (λ v, v)
          (SearchPage.mkState "cozy" "medium" false [] None)
          (λ _, Returned (SearchPage.OtherReply (None : option (list nat))))))
  = false ∧
  (SearchPage.error
     (SearchPage.after
        (SearchPage.handleSearch (λ v, v)
           (SearchPage.mkState "cozy" "medium" false [] None)
           (λ _, Returned (SearchPage.OtherReply (None : option (list nat))))))
   = None ↔
   SearchPage.restaurants
     (SearchPage.after
        (SearchPage.handleSearch (λ v, v)
           (SearchPage.mkState "cozy" "medium" false [] None)
           (λ _, Returned (SearchPage.OtherReply (None : option (list nat))))))
   ≠ []).
Proof.
  apply (search_ends_with_results_or_error (λ v, v)
           (SearchPage.mkState "cozy" "medium" false [] None)
           (λ _, Returned (SearchPage.OtherReply (None : option (list nat))))).
  reflexivity.
Defined.

Lemma vector_search_page_never_empty_witness :
  SearchPage.error
    (SearchPage.after
       (SearchPage.handleSearch (λ v, v)
          (SearchPage.mkState "cozy" "medium" false [] None)
          (vectorEndpoint embed_nothing (rpc_rows (Some ["row"]) None))))
  = None.
Proof.
  apply (vector_search_page_never_empty (λ v, v)
           (SearchPage.mkState "cozy" "medium" false [] None)
           embed_nothing (rpc_rows (Some ["row"]) None)).
  reflexivity.
Defined.

Lemma every_price_button_sets_bounds_witness :
  VectorSearch.priceRange
    (JString
       (SearchPage.req_price_preference (SearchPage.mkRequest "cozy" "high")))
  = (Some 3, Some 4)%Z.
Proof.
  apply (every_price_button_sets_bounds (λ v, v)
           (SearchPage.mkState "cozy" "high-plus" false ([] : list nat) None)
           (λ _, Threw) (SearchPage.mkRequest "cozy" "high")).
  - apply (bool_decide_unpack _). vm_compute. reflexivity.
  - simpl. constructor.
  - reflexivity.
Defined.
